(** * pypager.source: the escape-sequence decoder of [PipeSource]

    A shallow embedding of [src/pypager/source.py]: the generator
    [PipeSource._parse_corot] as an explicit resumable state machine, the SGR
    resolver [PipeSource._select_graphic_rendition], the colour dictionaries
    built at import time, and [PipeSource.read_chunk]. *)

From Stdlib Require Import ZArith NArith HexString.
From stdpp Require Import gmap strings list.

Open Scope Z_scope.

(** ** The Python runtime, as far as the decoder uses it *)

(** A character of the decoded input: its Unicode code point.  The source
    runs with [unicode_literals], and the reader hands it text. *)
Definition char : Type := N.

Definition BACKSPACE : char := 0x08%N.      (* '\b'   *)
Definition ESC : char := 0x1b%N.            (* '\x1b' *)
Definition CSI_8BIT : char := 0x9b%N.       (* '\x9b' *)
Definition LBRACKET : char := 0x5b%N.       (* '['    *)
Definition SEMICOLON : char := 0x3b%N.      (* ';'    *)
Definition LOWER_M : char := 0x6d%N.        (* 'm'    *)
Definition UNDERSCORE : char := 0x5f%N.     (* '_'    *)

(** The characters of an ASCII string literal. *)
Definition chars (s : string) : list char :=
  map Ascii.N_of_ascii (String.list_ascii_of_string s).

(** Exceptions that leave the decoder. *)
Inductive exn : Type :=
| StopIteration            (* [send] on a generator that has finished *)
| IndexError               (* [pop] from an empty list *)
| ValueError               (* [int] of a string that is no decimal literal *)
| Exception_ (msg : char). (* [raise Exception(str(char))], line 128 *)

Inductive result (A : Type) : Type :=
| Ret (a : A)
| Raise (e : exn).
Arguments Ret {A} a.
Arguments Raise {A} e.

(** The characters for which [str.isdigit] holds, as maximal runs
    [(first, last, decimal)] of the Unicode database (version 14.0.0).
    [decimal = true] marks a run of decimal digits (general category Nd),
    whose members count 0, 1, ..., 9 from [first], over and over;
    [decimal = false] marks characters that are digits without being decimal
    ones (superscripts, circled digits and the like): [isdigit] accepts them,
    [int] does not. *)
Definition unicode_digit_runs : list (N * N * bool) :=
  [ (0x30, 0x39, true); (0xb2, 0xb3, false); (0xb9, 0xb9, false);
    (0x660, 0x669, true); (0x6f0, 0x6f9, true); (0x7c0, 0x7c9, true);
    (0x966, 0x96f, true); (0x9e6, 0x9ef, true); (0xa66, 0xa6f, true);
    (0xae6, 0xaef, true); (0xb66, 0xb6f, true); (0xbe6, 0xbef, true);
    (0xc66, 0xc6f, true); (0xce6, 0xcef, true); (0xd66, 0xd6f, true);
    (0xde6, 0xdef, true); (0xe50, 0xe59, true); (0xed0, 0xed9, true);
    (0xf20, 0xf29, true); (0x1040, 0x1049, true); (0x1090, 0x1099, true);
    (0x1369, 0x1371, false); (0x17e0, 0x17e9, true); (0x1810, 0x1819, true);
    (0x1946, 0x194f, true); (0x19d0, 0x19d9, true); (0x19da, 0x19da, false);
    (0x1a80, 0x1a89, true); (0x1a90, 0x1a99, true); (0x1b50, 0x1b59, true);
    (0x1bb0, 0x1bb9, true); (0x1c40, 0x1c49, true); (0x1c50, 0x1c59, true);
    (0x2070, 0x2070, false); (0x2074, 0x2079, false); (0x2080, 0x2089, false);
    (0x2460, 0x2468, false); (0x2474, 0x247c, false); (0x2488, 0x2490, false);
    (0x24ea, 0x24ea, false); (0x24f5, 0x24fd, false); (0x24ff, 0x24ff, false);
    (0x2776, 0x277e, false); (0x2780, 0x2788, false); (0x278a, 0x2792, false);
    (0xa620, 0xa629, true); (0xa8d0, 0xa8d9, true); (0xa900, 0xa909, true);
    (0xa9d0, 0xa9d9, true); (0xa9f0, 0xa9f9, true); (0xaa50, 0xaa59, true);
    (0xabf0, 0xabf9, true); (0xff10, 0xff19, true); (0x104a0, 0x104a9, true);
    (0x10a40, 0x10a43, false); (0x10d30, 0x10d39, true);
    (0x10e60, 0x10e68, false); (0x11052, 0x1105a, false);
    (0x11066, 0x1106f, true); (0x110f0, 0x110f9, true);
    (0x11136, 0x1113f, true); (0x111d0, 0x111d9, true);
    (0x112f0, 0x112f9, true); (0x11450, 0x11459, true);
    (0x114d0, 0x114d9, true); (0x11650, 0x11659, true);
    (0x116c0, 0x116c9, true); (0x11730, 0x11739, true);
    (0x118e0, 0x118e9, true); (0x11950, 0x11959, true);
    (0x11c50, 0x11c59, true); (0x11d50, 0x11d59, true);
    (0x11da0, 0x11da9, true); (0x16a60, 0x16a69, true);
    (0x16ac0, 0x16ac9, true); (0x16b50, 0x16b59, true);
    (0x1d7ce, 0x1d7ff, true); (0x1e140, 0x1e149, true);
    (0x1e2f0, 0x1e2f9, true); (0x1e950, 0x1e959, true);
    (0x1f100, 0x1f10a, false); (0x1fbf0, 0x1fbf9, true) ]%N.

Inductive digit_class : Type :=
| Decimal (v : Z)   (* a decimal digit and its value 0..9 *)
| OtherDigit        (* a digit for [isdigit], no literal for [int] *)
| NoDigit.

Fixpoint classify_in (runs : list (N * N * bool)) (c : char) : digit_class :=
  match runs with
  | [] => NoDigit
  | (first, last, decimal) :: runs =>
      if ((first <=? c) && (c <=? last))%N
      then if decimal then Decimal (Z.of_N ((c - first) mod 10)) else OtherDigit
      else classify_in runs c
  end.

Definition classify (c : char) : digit_class := classify_in unicode_digit_runs c.

(** [char.isdigit()] *)
Definition isdigit (c : char) : bool :=
  match classify c with NoDigit => false | _ => true end.

(** The value of a string of decimal digits, most significant first;
    [None] as soon as a character is no decimal digit. *)
Fixpoint decimal_value (acc : Z) (s : list char) : option Z :=
  match s with
  | [] => Some acc
  | c :: s =>
      match classify c with
      | Decimal v => decimal_value (10 * acc + v) s
      | _ => None
      end
  end.

(** [sys.get_int_max_str_digits()], as the interpreter starts with it:
    [int] refuses a string of more digits (leading zeros count). *)
Definition int_max_str_digits : Z := 4300.

(** [int(current or 0)], for a [current] that holds [isdigit] characters
    only: the empty string is falsy, so [int(0)]; otherwise the decimal
    literal.  [ValueError] is raised when the string has more than
    [int_max_str_digits] characters and when one of them is no decimal
    digit. *)
Definition int_or_0 (current : list char) : result Z :=
  match current with
  | [] => Ret 0
  | _ =>
      if int_max_str_digits <? Z.of_nat (length current) then Raise ValueError
      else match decimal_value 0 current with
           | Some v => Ret v
           | None => Raise ValueError
           end
  end.

(** ['%02x' % n]: lowercase hexadecimal, zero-padded to two characters; a
    negative number carries its sign, which counts for the width. *)
Definition format_02x (n : Z) : string :=
  match n with
  | Z0 => "00"
  | Zpos p =>
      let s := HexString.Raw.of_pos p EmptyString in
      if (String.length s <? 2)%nat then "0" +:+ s else s
  | Zneg p => "-" +:+ HexString.Raw.of_pos p EmptyString
  end.

(** ['%02x%02x%02x' % (r, g, b)] *)
Definition format_rgb (r g b : Z) : string :=
  format_02x r +:+ format_02x g +:+ format_02x b.

(** ** Style attributes *)

(** [prompt_toolkit.styles.Attrs], the named tuple the source builds at
    lines 44 and 180. *)
Record Attrs : Type := mkAttrs {
  color : option string;
  bgcolor : option string;
  bold : bool;
  underline : bool;
  italic : bool;
  blink : bool;
  reverse : bool }.

(** [Attrs(color=None, bgcolor=None, bold=False, underline=False,
    italic=False, blink=False, reverse=False)] *)
Definition default_attrs : Attrs :=
  mkAttrs None None false false false false false.

(** The dictionary [replace] of [_select_graphic_rendition]: its keys are
    among the seven field names, each one present ([Some]) or absent. *)
Record Replace : Type := mkReplace {
  r_color : option (option string);
  r_bgcolor : option (option string);
  r_bold : option bool;
  r_underline : option bool;
  r_italic : option bool;
  r_blink : option bool;
  r_reverse : option bool }.

(** [replace = {}] *)
Definition no_replace : Replace := mkReplace None None None None None None None.

Definition set_color (v : option string) (r : Replace) : Replace :=
  mkReplace (Some v) (r_bgcolor r) (r_bold r) (r_underline r) (r_italic r)
            (r_blink r) (r_reverse r).
Definition set_bgcolor (v : option string) (r : Replace) : Replace :=
  mkReplace (r_color r) (Some v) (r_bold r) (r_underline r) (r_italic r)
            (r_blink r) (r_reverse r).
Definition set_bold (v : bool) (r : Replace) : Replace :=
  mkReplace (r_color r) (r_bgcolor r) (Some v) (r_underline r) (r_italic r)
            (r_blink r) (r_reverse r).
Definition set_underline (v : bool) (r : Replace) : Replace :=
  mkReplace (r_color r) (r_bgcolor r) (r_bold r) (Some v) (r_italic r)
            (r_blink r) (r_reverse r).
Definition set_italic (v : bool) (r : Replace) : Replace :=
  mkReplace (r_color r) (r_bgcolor r) (r_bold r) (r_underline r) (Some v)
            (r_blink r) (r_reverse r).
Definition set_blink (v : bool) (r : Replace) : Replace :=
  mkReplace (r_color r) (r_bgcolor r) (r_bold r) (r_underline r) (r_italic r)
            (Some v) (r_reverse r).
Definition set_reverse (v : bool) (r : Replace) : Replace :=
  mkReplace (r_color r) (r_bgcolor r) (r_bold r) (r_underline r) (r_italic r)
            (r_blink r) (Some v).

(** The named tuple's [_replace], called with the dictionary as keyword
    arguments (line 207): every key present overrides its field. *)
Definition _replace (a : Attrs) (r : Replace) : Attrs :=
  mkAttrs (default (color a) (r_color r))
          (default (bgcolor a) (r_bgcolor r))
          (default (bold a) (r_bold r))
          (default (underline a) (r_underline r))
          (default (italic a) (r_italic r))
          (default (blink a) (r_blink r))
          (default (reverse a) (r_reverse r)).

(** ** The style tag of a token *)

(** The values the local [token] of [_parse_corot] takes: [Token], the two
    emphasis variants, and the tuple [('C', ) + self._attrs]. *)
Inductive token_type : Type :=
| Token
| Token_Standout
| Token_Standout2
| Token_C (a : Attrs).

(** ** The state of a [PipeSource]

    [_parse_corot] is a generator: between two [send]s it is suspended at one
    of its three [yield]s, with its local variables alive, or it has been left
    by an exception and is finished for good. *)
Inductive frame : Type :=
| Normal                                         (* [c = yield], line 85 *)
| AfterEscape                                    (* [square_bracket = yield], line 101 *)
| InCSI (current : list char) (params : list Z)  (* [char = yield], line 114 *)
| Finished.

(** The attributes of the object that the decoder touches, and the locals of
    the generator that live across iterations of its outer loop.  The local
    [line_tokens] is the very list [self._line_tokens] (line 80), which
    [read_chunk] empties in place: one field stands for both names.  The
    attributes [fileno] and [_stdin_reader] belong to the reader; the text
    they deliver is an argument of [read_chunk]. *)
Record PipeSource : Type := mkPipeSource {
  _line_tokens : list (token_type * char);
  _eof : bool;
  _attrs : Attrs;
  _parser : frame;
  token : token_type;
  replace_one_token : bool }.

Definition set_line_tokens (l : list (token_type * char)) (self : PipeSource) :=
  mkPipeSource l (_eof self) (_attrs self) (_parser self) (token self)
               (replace_one_token self).
Definition set_eof (b : bool) (self : PipeSource) :=
  mkPipeSource (_line_tokens self) b (_attrs self) (_parser self) (token self)
               (replace_one_token self).
Definition set_attrs (a : Attrs) (self : PipeSource) :=
  mkPipeSource (_line_tokens self) (_eof self) a (_parser self) (token self)
               (replace_one_token self).
Definition set_parser (f : frame) (self : PipeSource) :=
  mkPipeSource (_line_tokens self) (_eof self) (_attrs self) f (token self)
               (replace_one_token self).
Definition set_token (t : token_type) (self : PipeSource) :=
  mkPipeSource (_line_tokens self) (_eof self) (_attrs self) (_parser self) t
               (replace_one_token self).
Definition set_replace_one_token (b : bool) (self : PipeSource) :=
  mkPipeSource (_line_tokens self) (_eof self) (_attrs self) (_parser self)
               (token self) b.

(** [PipeSource.__init__]: the generator is created and advanced to its
    first [yield] (lines 48 and 49). *)
Definition init : PipeSource :=
  mkPipeSource [] false default_attrs Normal Token false.

(** [l.pop()] on a non-empty list: what is left, and the last element. *)
Fixpoint py_pop {A : Type} (l : list A) : option (list A * A) :=
  match l with
  | [] => None
  | x :: l =>
      match py_pop l with
      | None => Some ([], x)
      | Some (l', y) => Some (x :: l', y)
      end
  end.

(** ** An instance of the imported tables

    Tables of the shape prompt_toolkit's [vt100_output] provides: the sixteen
    colour names with their foreground and background codes (and the default
    colour, 39 and 49), and a palette made of sixteen basic colours, the
    colour cube and a grey ramp.  The decoder is instantiated with them
    wherever a statement is evaluated on concrete input. *)
Definition sample_FG_ANSI_COLORS : gmap string Z :=
  list_to_map
    [ ("ansidefault", 39); ("ansiblack", 30); ("ansidarkred", 31);
      ("ansidarkgreen", 32); ("ansibrown", 33); ("ansidarkblue", 34);
      ("ansipurple", 35); ("ansiteal", 36); ("ansilightgray", 37);
      ("ansidarkgray", 90); ("ansired", 91); ("ansigreen", 92);
      ("ansiyellow", 93); ("ansiblue", 94); ("ansifuchsia", 95);
      ("ansiturquoise", 96); ("ansiwhite", 97) ]%string.

Definition sample_BG_ANSI_COLORS : gmap string Z :=
  list_to_map
    [ ("ansidefault", 49); ("ansiblack", 40); ("ansidarkred", 41);
      ("ansidarkgreen", 42); ("ansibrown", 43); ("ansidarkblue", 44);
      ("ansipurple", 45); ("ansiteal", 46); ("ansilightgray", 47);
      ("ansidarkgray", 100); ("ansired", 101); ("ansigreen", 102);
      ("ansiyellow", 103); ("ansiblue", 104); ("ansifuchsia", 105);
      ("ansiturquoise", 106); ("ansiwhite", 107) ]%string.

Definition sample_colors : list (Z * Z * Z) :=
  let valuerange := [0x00; 0x5f; 0x87; 0xaf; 0xd7; 0xff] in
  let level (k : nat) := nth (k mod 6)%nat valuerange 0 in
  [ (0x00, 0x00, 0x00); (0xcd, 0x00, 0x00); (0x00, 0xcd, 0x00);
    (0xcd, 0xcd, 0x00); (0x00, 0x00, 0xee); (0xcd, 0x00, 0xcd);
    (0x00, 0xcd, 0xcd); (0xe5, 0xe5, 0xe5); (0x7f, 0x7f, 0x7f);
    (0xff, 0x00, 0x00); (0x00, 0xff, 0x00); (0xff, 0xff, 0x00);
    (0x5c, 0x5c, 0xff); (0xff, 0x00, 0xff); (0x00, 0xff, 0xff);
    (0xff, 0xff, 0xff) ]
  ++ map (fun i => (level (i / 36)%nat, level (i / 6)%nat, level i)) (seq 0 217)
  ++ map (fun i => let v := 8 + Z.of_nat i * 10 in (v, v, v)) (seq 1 21).

(** What prompt_toolkit's [explode_tokens] does to a list of (token, text)
    pairs: one pair per character. *)
Definition sample_explode_tokens (item : list (nat * string)) : list (nat * char) :=
  flat_map (fun '(t, text) => map (pair t) (chars text)) item.

Section Decoder.

(** ** The tables imported from prompt_toolkit

    [FG_ANSI_COLORS] and [BG_ANSI_COLORS] map a colour name to its SGR code,
    [_256_colors_table.colors] lists the RGB triples of the palette.  They
    are not part of this repository: the development is parametric in them. *)
Variable FG_ANSI_COLORS : gmap string Z.
Variable BG_ANSI_COLORS : gmap string Z.
Variable colors : list (Z * Z * Z).

(** [dict((v, k) for k, v in d.items())]: when two names share a code the
    pair that comes later wins, hence the [rev] ([list_to_map] keeps the
    first). *)
Definition invert (d : gmap string Z) : gmap Z string :=
  list_to_map (rev (prod_swap <$> map_to_list d)).

(** Lines 211 and 212. *)
Definition _fg_colors : gmap Z string := invert FG_ANSI_COLORS.
Definition _bg_colors : gmap Z string := invert BG_ANSI_COLORS.

(** Lines 215 to 218: [_256_colors[1024 + i] = '%02x%02x%02x' % (r, g, b)]
    for the [i]-th triple of the palette. *)
Definition _256_colors : gmap Z string :=
  list_to_map
    (imap (fun i '(r, g, b) => (1024 + Z.of_nat i, format_rgb r g b)) colors).

(** ** The SGR resolver *)

(** The [while attrs:] loop of lines 149 to 205.  The Python list [attrs]
    was reversed at line 147 and is popped from its end, so the parameters
    are consumed first to last: the Rocq list holds the stack with its top
    first.  [self_attrs] is [self._attrs], which code 0 overwrites at once
    (line 180); [replace] is the dictionary of pending changes.  A [pop] from
    the empty list raises [IndexError]; only the three pops of the truecolor
    form are inside a [try] (lines 197 to 200), and when one of them fails the
    list is empty, so the loop ends. *)
Fixpoint sgr_loop (self_attrs : Attrs) (replace : Replace) (attrs : list Z)
  {struct attrs} : Attrs * result Replace :=
  match attrs with
  | [] => (self_attrs, Ret replace)
  | attr :: attrs =>
      match _fg_colors !! attr with
      | Some name => sgr_loop self_attrs (set_color (Some name) replace) attrs
      | None =>
      match _bg_colors !! attr with
      | Some name => sgr_loop self_attrs (set_bgcolor (Some name) replace) attrs
      | None =>
      if attr =? 1 then sgr_loop self_attrs (set_bold true replace) attrs
      else if attr =? 3 then sgr_loop self_attrs (set_italic true replace) attrs
      else if attr =? 4 then sgr_loop self_attrs (set_underline true replace) attrs
      else if attr =? 5 then sgr_loop self_attrs (set_blink true replace) attrs
      else if attr =? 6 then sgr_loop self_attrs (set_blink true replace) attrs
      else if attr =? 7 then sgr_loop self_attrs (set_reverse true replace) attrs
      else if attr =? 22 then sgr_loop self_attrs (set_bold false replace) attrs
      else if attr =? 23 then sgr_loop self_attrs (set_italic false replace) attrs
      else if attr =? 24 then sgr_loop self_attrs (set_underline false replace) attrs
      else if attr =? 25 then sgr_loop self_attrs (set_blink false replace) attrs
      else if attr =? 27 then sgr_loop self_attrs (set_reverse false replace) attrs
      else if attr =? 0 then sgr_loop default_attrs no_replace attrs
      else if (attr =? 38) || (attr =? 48) then
        match attrs with
        | [] => (self_attrs, Raise IndexError)               (* line 184 *)
        | n :: attrs =>
            if n =? 5 then                                   (* line 187 *)
              match attrs with
              | [] => (self_attrs, Raise IndexError)         (* lines 189, 192 *)
              | m :: attrs =>
                  let c := _256_colors !! (1024 + m) in
                  if attr =? 38
                  then sgr_loop self_attrs (set_color c replace) attrs
                  else sgr_loop self_attrs (set_bgcolor c replace) attrs
              end
            else if n =? 2 then                              (* line 196 *)
              match attrs with
              | r :: g :: b :: attrs =>
                  let color_str := format_rgb r g b in
                  if attr =? 38
                  then sgr_loop self_attrs (set_color (Some color_str) replace) attrs
                  else sgr_loop self_attrs (set_bgcolor (Some color_str) replace) attrs
              | _ => (self_attrs, Ret replace)               (* lines 199, 200 *)
              end
            else sgr_loop self_attrs replace attrs
        end
      else sgr_loop self_attrs replace attrs
      end end
  end.

(** [PipeSource._select_graphic_rendition]: the new [self._attrs], and
    whether the call returned or raised.  When it raises, line 207 is not
    reached, but a reset done by code 0 has happened. *)
Definition _select_graphic_rendition (self_attrs : Attrs) (attrs : list Z)
  : Attrs * result unit :=
  let attrs := match attrs with [] => [0] | _ => attrs end in
  match sgr_loop self_attrs no_replace attrs with
  | (self_attrs, Ret replace) => (_replace self_attrs replace, Ret ())
  | (self_attrs, Raise e) => (self_attrs, Raise e)
  end.

(** Lines 123 to 125, the terminator [m] of a CSI sequence: the resolver is
    called with [params], [token] becomes [('C', ) + self._attrs], and the
    inner loop is left.  An exception of the resolver leaves the generator. *)
Definition apply_sgr (self : PipeSource) (params : list Z)
  : PipeSource * result unit :=
  match _select_graphic_rendition (_attrs self) params with
  | (attrs, Ret _) =>
      (set_token (Token_C attrs) (set_parser Normal (set_attrs attrs self)),
       Ret ())
  | (attrs, Raise e) => (set_parser Finished (set_attrs attrs self), Raise e)
  end.

(** ** The generator

    [PipeSource._parse_corot], resumed by [self._parser.send(c)]: the
    generator runs from the [yield] it is suspended at to the next one.  The
    result is [Ret] when it suspends again, [Raise e] when an exception
    leaves it (the generator is then finished, and every later [send] raises
    [StopIteration]). *)
Definition _parse_corot (self : PipeSource) (c : char)
  : PipeSource * result unit :=
  match _parser self with
  | Normal =>
      if (c =? BACKSPACE)%N then                             (* line 87 *)
        match py_pop (_line_tokens self) with                (* line 89 *)
        | None => (self, Ret ())
        | Some (line_tokens, (_, last_char)) =>
            (set_token (if (last_char =? UNDERSCORE)%N
                        then Token_Standout2 else Token_Standout)
               (set_replace_one_token true
                  (set_line_tokens line_tokens self)), Ret ())
        end
      else if (c =? ESC)%N then                              (* line 99 *)
        (set_parser AfterEscape self, Ret ())
      else if (c =? CSI_8BIT)%N then                         (* line 106 *)
        (set_parser (InCSI [] []) self, Ret ())
      else                                                   (* line 130 *)
        let self := set_line_tokens (_line_tokens self ++ [(token self, c)]) self in
        (if replace_one_token self then set_token Token self else self, Ret ())
  | AfterEscape =>
      if (c =? LBRACKET)%N                                   (* line 102 *)
      then (set_parser (InCSI [] []) self, Ret ())
      else (set_parser Normal self, Ret ())
  | InCSI current params =>
      if isdigit c then                                      (* line 115 *)
        (set_parser (InCSI (current ++ [c]) params) self, Ret ())
      else
        match int_or_0 current with                          (* line 118 *)
        | Raise e => (set_parser Finished self, Raise e)
        | Ret v =>
            let params := params ++ [Z.min v 9999] in
            if (c =? SEMICOLON)%N then                       (* line 119 *)
              (set_parser (InCSI [] params) self, Ret ())
            else if (c =? LOWER_M)%N then                    (* line 121 *)
              apply_sgr self params
            else                                             (* line 128 *)
              (set_parser Finished self, Raise (Exception_ c))
        end
  | Finished => (self, Raise StopIteration)
  end.

(** [for c in data: self._parser.send(c)] (lines 66 and 67): an exception
    ends the loop. *)
Fixpoint send_all (self : PipeSource) (data : list char)
  : PipeSource * result unit :=
  match data with
  | [] => (self, Ret ())
  | c :: data =>
      match _parse_corot self c with
      | (self, Ret _) => send_all self data
      | (self, Raise e) => (self, Raise e)
      end
  end.

(** [PipeSource.read_chunk], with [data] the text the reader delivered.  An
    exception of the parser leaves the method before the queue is copied and
    emptied. *)
Definition read_chunk (self : PipeSource) (data : list char)
  : PipeSource * result (list (token_type * char)) :=
  let self := match data with [] => set_eof true self | _ => self end in
  match send_all self data with
  | (self, Ret _) => (set_line_tokens [] self, Ret (_line_tokens self))
  | (self, Raise e) => (self, Raise e)
  end.

(** Successive [read_chunk] calls, one per batch; the token lists they
    return, in order. *)
Fixpoint read_chunks (self : PipeSource) (batches : list (list char))
  : PipeSource * result (list (list (token_type * char))) :=
  match batches with
  | [] => (self, Ret [])
  | data :: batches =>
      match read_chunk self data with
      | (self, Raise e) => (self, Raise e)
      | (self, Ret tokens) =>
          match read_chunks self batches with
          | (self, Ret rest) => (self, Ret (tokens :: rest))
          | (self, Raise e) => (self, Raise e)
          end
      end
  end.

(** ** Notions used in the statements *)

(** A decimal digit: a character [int] reads as one of 0..9. *)
Definition is_decimal (c : char) : bool :=
  match classify c with Decimal _ => true | _ => false end.

(** The number a run of decimal digits denotes (0 for the empty run, as
    [int(current or 0)] has it). *)
Definition digits_value (ds : list char) : Z :=
  default 0 (decimal_value 0 ds).

(** Two objects whose decoders are in the same state: they agree on
    everything but the queue of undrained tokens and the end-of-input flag. *)
Definition same_decoder (s1 s2 : PipeSource) : Prop :=
  _attrs s1 = _attrs s2 /\ _parser s1 = _parser s2 /\
  token s1 = token s2 /\ replace_one_token s1 = replace_one_token s2.

(** [attr] is a key of neither legacy colour dictionary, so that the
    resolver's first two tests (lines 152 and 154) fail for it. *)
Definition not_a_colour_code (attr : Z) : Prop :=
  _fg_colors !! attr = None /\ _bg_colors !! attr = None.

(** The parameters collected so far are within the clamp. *)
Definition params_bounded (self : PipeSource) : Prop :=
  match _parser self with
  | InCSI _ params => Forall (fun p => 0 <= p <= 9999) params
  | _ => True
  end.

(** *** One turn of the resolver's loop

    What one iteration of [while attrs:] does to the pair of [self._attrs]
    and [replace], apart from the parameters it consumes. *)
Inductive change : Type :=
| Keep                                   (* nothing: an ignored code *)
| ResetAll                               (* code 0, lines 179 to 181 *)
| SetColor (v : option string)
| SetBgcolor (v : option string)
| SetBold (v : bool)
| SetItalic (v : bool)
| SetUnderline (v : bool)
| SetBlink (v : bool)
| SetReverse (v : bool).

Definition apply_change (ch : change) (self_attrs : Attrs) (replace : Replace)
  : Attrs * Replace :=
  match ch with
  | Keep => (self_attrs, replace)
  | ResetAll => (default_attrs, no_replace)
  | SetColor v => (self_attrs, set_color v replace)
  | SetBgcolor v => (self_attrs, set_bgcolor v replace)
  | SetBold v => (self_attrs, set_bold v replace)
  | SetItalic v => (self_attrs, set_italic v replace)
  | SetUnderline v => (self_attrs, set_underline v replace)
  | SetBlink v => (self_attrs, set_blink v replace)
  | SetReverse v => (self_attrs, set_reverse v replace)
  end.

(** The outcome of one iteration on [attr], popped from a list of which
    [attrs] is left: a change and the parameters still to process, the end of
    the loop after a truncated truecolor form, or [IndexError]. *)
Inductive turn : Type :=
| Turn (ch : change) (rest : list Z)
| TurnEnd
| TurnIndexError.

Definition sgr_turn (attr : Z) (attrs : list Z) : turn :=
  match _fg_colors !! attr with
  | Some name => Turn (SetColor (Some name)) attrs
  | None =>
  match _bg_colors !! attr with
  | Some name => Turn (SetBgcolor (Some name)) attrs
  | None =>
  if attr =? 1 then Turn (SetBold true) attrs
  else if attr =? 3 then Turn (SetItalic true) attrs
  else if attr =? 4 then Turn (SetUnderline true) attrs
  else if attr =? 5 then Turn (SetBlink true) attrs
  else if attr =? 6 then Turn (SetBlink true) attrs
  else if attr =? 7 then Turn (SetReverse true) attrs
  else if attr =? 22 then Turn (SetBold false) attrs
  else if attr =? 23 then Turn (SetItalic false) attrs
  else if attr =? 24 then Turn (SetUnderline false) attrs
  else if attr =? 25 then Turn (SetBlink false) attrs
  else if attr =? 27 then Turn (SetReverse false) attrs
  else if attr =? 0 then Turn ResetAll attrs
  else if (attr =? 38) || (attr =? 48) then
    match attrs with
    | [] => TurnIndexError
    | n :: attrs =>
        if n =? 5 then
          match attrs with
          | [] => TurnIndexError
          | m :: attrs =>
              let c := _256_colors !! (1024 + m) in
              Turn (if attr =? 38 then SetColor c else SetBgcolor c) attrs
          end
        else if n =? 2 then
          match attrs with
          | r :: g :: b :: attrs =>
              let color_str := Some (format_rgb r g b) in
              Turn (if attr =? 38 then SetColor color_str
                    else SetBgcolor color_str) attrs
          | _ => TurnEnd
          end
        else Turn Keep attrs
    end
  else Turn Keep attrs
  end end.

(** The pending changes [d] laid over the pending changes [r]: a key of [d]
    wins. *)
Definition later {A : Type} (d r : option A) : option A :=
  match d with Some _ => d | None => r end.

Definition merge (r d : Replace) : Replace :=
  mkReplace (later (r_color d) (r_color r)) (later (r_bgcolor d) (r_bgcolor r))
            (later (r_bold d) (r_bold r)) (later (r_underline d) (r_underline r))
            (later (r_italic d) (r_italic r)) (later (r_blink d) (r_blink r))
            (later (r_reverse d) (r_reverse r)).

(** The five boolean attributes, the field each one names, and the code
    that switches it off (lines 168 to 177). *)
Inductive flag : Type := Bold | Italic | Underline | Blink | Reverse.

Definition get_flag (f : flag) (a : Attrs) : bool :=
  match f with
  | Bold => bold a
  | Italic => italic a
  | Underline => underline a
  | Blink => blink a
  | Reverse => reverse a
  end.

Definition off_code (f : flag) : Z :=
  match f with
  | Bold => 22
  | Italic => 23
  | Underline => 24
  | Blink => 25
  | Reverse => 27
  end.

(** A code the resolver has no branch for. *)
Definition unknown_code_ (attr : Z) : Prop :=
  not_a_colour_code attr /\
  attr ∉ [0; 1; 3; 4; 5; 6; 7; 22; 23; 24; 25; 27; 38; 48].

(** Whether a change is the reset, and the pending changes it adds. *)
Definition resets (ch : change) : bool :=
  match ch with ResetAll => true | _ => false end.

Definition delta (ch : change) : Replace :=
  (apply_change ch default_attrs no_replace).2.

(** No parameter is 38 or 48: no extended colour form begins in the list. *)
Definition no_extended_colour (ps : list Z) : Prop :=
  Forall (fun p => p <> 38 /\ p <> 48) ps.

(** A character the [Normal] state queues: no backspace and no introducer. *)
Definition ordinary (c : char) : Prop :=
  c <> BACKSPACE /\ c <> ESC /\ c <> CSI_8BIT.

(** The body of a CSI sequence that ends in [m]: the digit runs, separated
    by [;]. *)
Fixpoint csi_body (runs : list (list char)) : list char :=
  match runs with
  | [] => []
  | [ds] => ds ++ [LOWER_M]
  | ds :: runs => ds ++ SEMICOLON :: csi_body runs
  end.

(** The parameter a digit run stands for (line 118). *)
Definition parameter (ds : list char) : Z := Z.min (digits_value ds) 9999.

(** A colour tag held by the generator is the current style. *)
Definition tag_is_current (self : PipeSource) : Prop :=
  forall a, token self = Token_C a -> a = _attrs self.

(** ** Basic facts *)

Lemma py_pop_snoc {A : Type} (l : list A) (x : A) : py_pop (l ++ [x]) = Some (l, x).
Proof.
  induction l as [|y l IH]; simpl; [reflexivity|].
  rewrite IH. reflexivity.
Qed.

Lemma is_decimal_isdigit c : is_decimal c = true -> isdigit c = true.
Proof. unfold is_decimal, isdigit. destruct (classify c); congruence. Qed.

Lemma classify_in_range runs c v :
  classify_in runs c = Decimal v -> 0 <= v <= 9.
Proof.
  induction runs as [|[[first last] decimal] runs IH]; simpl; [discriminate|].
  destruct ((first <=? c) && (c <=? last))%N; [|exact IH].
  destruct decimal; [|discriminate].
  intros [= <-].
  assert (H : ((c - first) mod 10 < 10)%N) by (apply N.mod_upper_bound; lia).
  revert H. generalize ((c - first) mod 10)%N. intros n Hn. lia.
Qed.

Lemma decimal_value_ge acc ds v :
  0 <= acc -> decimal_value acc ds = Some v -> 0 <= v.
Proof.
  revert acc. induction ds as [|c ds IH]; simpl; intros acc Hacc.
  - intros [= <-]. exact Hacc.
  - destruct (classify c) as [d| |] eqn:Hc; try discriminate.
    apply classify_in_range in Hc. apply IH. lia.
Qed.

Lemma decimal_value_decimals ds :
  Forall (fun c => is_decimal c = true) ds ->
  forall acc, decimal_value acc ds = Some (default 0 (decimal_value acc ds)).
Proof.
  unfold is_decimal. induction 1 as [|c ds Hc _ IH]; intros acc; simpl.
  - reflexivity.
  - destruct (classify c); try discriminate. apply IH.
Qed.

(** [int(current or 0)] of a run of decimal digits. *)
Lemma int_or_0_decimals ds :
  Forall (fun c => is_decimal c = true) ds ->
  Z.of_nat (length ds) <= int_max_str_digits ->
  int_or_0 ds = Ret (digits_value ds).
Proof.
  intros Hds Hlen. unfold int_or_0, digits_value.
  destruct ds as [|c ds]; [reflexivity|].
  apply Z.ltb_ge in Hlen. rewrite Hlen.
  rewrite (decimal_value_decimals _ Hds 0). reflexivity.
Qed.

(** A string of more than [int_max_str_digits] characters is refused. *)
Lemma int_or_0_too_long current :
  int_max_str_digits < Z.of_nat (length current) ->
  int_or_0 current = Raise ValueError.
Proof.
  intros Hlen. unfold int_or_0.
  destruct current as [|c current].
  { simpl in Hlen. unfold int_max_str_digits in Hlen. lia. }
  apply Z.ltb_lt in Hlen. rewrite Hlen. reflexivity.
Qed.

Lemma digits_value_ge ds : 0 <= digits_value ds.
Proof.
  unfold digits_value. destruct (decimal_value 0 ds) as [v|] eqn:Hv; simpl; [|lia].
  eapply decimal_value_ge; [|exact Hv]. lia.
Qed.

Lemma send_all_app self d1 d2 :
  send_all self (d1 ++ d2) =
  match send_all self d1 with
  | (self, Ret _) => send_all self d2
  | (self, Raise e) => (self, Raise e)
  end.
Proof.
  revert self. induction d1 as [|c d1 IH]; intros self; simpl; [reflexivity|].
  destruct (_parse_corot self c) as [self' [[]|e]]; [apply IH | reflexivity].
Qed.

(** A finished generator stays finished: every [send] raises
    [StopIteration] and changes nothing. *)
Lemma send_Finished self c :
  _parser self = Finished -> _parse_corot self c = (self, Raise StopIteration).
Proof. intros H. unfold _parse_corot. rewrite H. reflexivity. Qed.

(** Digits fed inside a CSI sequence are appended to [current]. *)
Lemma send_all_digits ds : forall self current params,
  _parser self = InCSI current params ->
  Forall (fun c => isdigit c = true) ds ->
  send_all self ds = (set_parser (InCSI (current ++ ds) params) self, Ret ()).
Proof.
  induction ds as [|c ds IH]; intros self current params Hp Hds; simpl.
  - rewrite app_nil_r, <- Hp. destruct self; reflexivity.
  - inversion Hds as [|? ? Hc Hds']; subst.
    unfold _parse_corot at 1. rewrite Hp, Hc.
    erewrite IH; [|reflexivity|exact Hds'].
    rewrite <- app_assoc. destruct self; reflexivity.
Qed.

Lemma int_or_0_ge current v : int_or_0 current = Ret v -> 0 <= v.
Proof.
  unfold int_or_0. destruct current as [|c current]; [intros [= <-]; lia|].
  destruct (int_max_str_digits <? _); [discriminate|].
  destruct (decimal_value 0 (c :: current)) as [w|] eqn:Hw; [|discriminate].
  intros [= <-]. eapply decimal_value_ge; [|exact Hw]. lia.
Qed.

(** The resolver step sets the frame itself: the frame it starts from does
    not matter. *)
Lemma apply_sgr_set_parser f self params :
  apply_sgr (set_parser f self) params = apply_sgr self params.
Proof.
  unfold apply_sgr. destruct self; simpl.
  destruct (_select_graphic_rendition _ _) as [a [[]|e]]; reflexivity.
Qed.

Lemma apply_sgr_frame self params :
  _parser (apply_sgr self params).1 = Normal \/
  _parser (apply_sgr self params).1 = Finished.
Proof.
  unfold apply_sgr.
  destruct (_select_graphic_rendition _ _) as [a [[]|e]]; simpl; auto.
Qed.

(** Every parameter the decoder has collected lies between 0 and 9999,
    whatever it is fed. *)
Lemma send_params_bounded self c :
  params_bounded self -> params_bounded (_parse_corot self c).1.
Proof.
  unfold params_bounded, _parse_corot.
  destruct (_parser self) as [| |current params|] eqn:Hp; intros Hb.
  - destruct (c =? BACKSPACE)%N.
    { destruct (py_pop _) as [[l [t ch]]|]; simpl; rewrite Hp; exact I. }
    destruct (c =? ESC)%N; [exact I|].
    destruct (c =? CSI_8BIT)%N; [simpl; constructor|].
    destruct (replace_one_token _); simpl; rewrite Hp; exact I.
  - destruct (c =? LBRACKET)%N; simpl; [constructor | exact I].
  - destruct (isdigit c); [exact Hb|].
    destruct (int_or_0 current) as [v|e] eqn:Hv; [|exact I].
    apply int_or_0_ge in Hv.
    destruct (c =? SEMICOLON)%N.
    { simpl. apply Forall_app. split; [exact Hb|]. repeat constructor; lia. }
    destruct (c =? LOWER_M)%N; [|exact I].
    destruct (apply_sgr_frame self (params ++ [Z.min v 9999])) as [-> | ->]; exact I.
  - simpl. rewrite Hp. exact I.
Qed.

Lemma send_all_params_bounded data : forall self,
  params_bounded self -> params_bounded (send_all self data).1.
Proof.
  induction data as [|c data IH]; intros self Hb; simpl; [exact Hb|].
  pose proof (send_params_bounded self c Hb) as Hc.
  destruct (_parse_corot self c) as [self' [[]|e]]; simpl in *; [apply IH|]; exact Hc.
Qed.

(** *** The resolver *)

(** A dictionary filled by enumeration: the key [k + i] holds the image of
    the [i]-th element, and no other key is present. *)
Lemma lookup_enumerated {A : Type} (g : A -> string) (l : list A) : forall k z,
  (list_to_map (imap (fun i x => (k + Z.of_nat i, g x)) l) : gmap Z string) !! z =
  if decide (k <= z) then g <$> l !! Z.to_nat (z - k) else None.
Proof.
  induction l as [|x l IH]; intros k z.
  - simpl. rewrite lookup_empty. destruct (decide (k <= z)); reflexivity.
  - rewrite imap_cons, list_to_map_cons.
    change (Z.of_nat 0) with 0. rewrite Z.add_0_r.
    rewrite (imap_ext _ (fun i x => (k + 1 + Z.of_nat i, g x)))
      by (intros i y _; simpl; f_equal; lia).
    destruct (decide (k = z)) as [Heq|Hne].
    + subst z. rewrite lookup_insert_eq.
      destruct (decide (k <= k)) as [_|Hn]; [|lia].
      replace (k - k) with 0 by lia. reflexivity.
    + rewrite lookup_insert_ne by exact Hne. rewrite IH.
      destruct (decide (k + 1 <= z)) as [H1|H1];
        destruct (decide (k <= z)) as [H2|H2]; try reflexivity; try lia.
      replace (Z.to_nat (z - k)) with (S (Z.to_nat (z - (k + 1)))) by lia.
      reflexivity.
Qed.

(** [_256_colors.get(1024 + m)]: the hexadecimal form of the [m]-th triple
    of the palette, [None] when the palette has no such entry. *)
Lemma _256_colors_get m :
  _256_colors !! (1024 + m) =
  if decide (0 <= m)
  then (fun '(r, g, b) => format_rgb r g b) <$> colors !! Z.to_nat m
  else None.
Proof.
  unfold _256_colors.
  rewrite (imap_ext _ (fun i x => (1024 + Z.of_nat i,
                                   (fun '(r, g, b) => format_rgb r g b) x)))
    by (intros i [[r g] b] _; reflexivity).
  rewrite lookup_enumerated.
  destruct (decide (1024 <= 1024 + m)); destruct (decide (0 <= m)); try lia;
    [|reflexivity].
  replace (1024 + m - 1024) with m by lia. reflexivity.
Qed.

Lemma _256_colors_out_of_range m :
  (length colors <= 256)%nat -> m < 0 \/ 255 < m ->
  _256_colors !! (1024 + m) = None.
Proof.
  intros Hlen Hm. rewrite _256_colors_get.
  destruct (decide (0 <= m)); [|reflexivity].
  rewrite (proj2 (lookup_ge_None colors (Z.to_nat m))) by lia. reflexivity.
Qed.

Lemma _replace_no_replace a : _replace a no_replace = a.
Proof. destruct a; reflexivity. Qed.

(** One turn of the loop for a 38 or 48 that is no key of the legacy
    dictionaries: control reaches line 183. *)
Lemma sgr_loop_extended a r attr attrs :
  attr = 38 \/ attr = 48 -> not_a_colour_code attr ->
  sgr_loop a r (attr :: attrs) =
  match attrs with
  | [] => (a, Raise IndexError)
  | n :: attrs =>
      if n =? 5 then
        match attrs with
        | [] => (a, Raise IndexError)
        | m :: attrs =>
            let c := _256_colors !! (1024 + m) in
            if attr =? 38 then sgr_loop a (set_color c r) attrs
            else sgr_loop a (set_bgcolor c r) attrs
        end
      else if n =? 2 then
        match attrs with
        | red :: green :: blue :: attrs =>
            let color_str := format_rgb red green blue in
            if attr =? 38 then sgr_loop a (set_color (Some color_str) r) attrs
            else sgr_loop a (set_bgcolor (Some color_str) r) attrs
        | _ => (a, Ret r)
        end
      else sgr_loop a r attrs
  end.
Proof.
  intros Hattr [Hfg Hbg]. cbn [sgr_loop]. rewrite Hfg, Hbg.
  destruct Hattr; subst attr; reflexivity.
Qed.

(** The part of C5 that holds: a truecolor form with fewer than three
    components left is skipped, the pending changes are kept, and the loop
    ends without an exception. *)
Lemma truncated_truecolor_skipped a r attr rest :
  attr = 38 \/ attr = 48 -> not_a_colour_code attr -> (length rest < 3)%nat ->
  sgr_loop a r (attr :: 2 :: rest) = (a, Ret r).
Proof.
  intros Hattr Hnc Hlen. rewrite sgr_loop_extended by assumption.
  cbn [Z.eqb Pos.eqb].
  destruct rest as [|x [|y [|z rest]]]; try reflexivity. simpl in Hlen. lia.
Qed.

(** X21.  The truecolor half of C5 for the resolver as a whole: with fewer
    than three components the call returns and the style is the prior one. *)
Lemma truncated_truecolor_keeps_style a attr rest :
  attr = 38 \/ attr = 48 -> not_a_colour_code attr -> (length rest < 3)%nat ->
  _select_graphic_rendition a (attr :: 2 :: rest) = (a, Ret ()).
Proof.
  intros Hattr Hnc Hlen. unfold _select_graphic_rendition.
  rewrite truncated_truecolor_skipped by assumption.
  rewrite _replace_no_replace. reflexivity.
Qed.

(** The resolver on [38;2;R;G;B] and [48;2;R;G;B]. *)
Lemma truecolor_resolved a attr red green blue :
  attr = 38 \/ attr = 48 -> not_a_colour_code attr ->
  _select_graphic_rendition a [attr; 2; red; green; blue] =
    (if attr =? 38
     then mkAttrs (Some (format_rgb red green blue)) (bgcolor a) (bold a)
                  (underline a) (italic a) (blink a) (reverse a)
     else mkAttrs (color a) (Some (format_rgb red green blue)) (bold a)
                  (underline a) (italic a) (blink a) (reverse a), Ret ()).
Proof.
  intros Hattr Hnc. unfold _select_graphic_rendition.
  rewrite sgr_loop_extended by assumption.
  destruct Hattr; subst attr; reflexivity.
Qed.

(** *** The decoder *)

(** [ESC [] from the [Normal] state opens a CSI sequence with an empty
    accumulator and no parameter. *)
Lemma send_all_introducer self :
  _parser self = Normal ->
  send_all self [ESC; LBRACKET] = (set_parser (InCSI [] []) self, Ret ()).
Proof.
  intros Hp. destruct self as [q e a f t r]; simpl in Hp; subst f. reflexivity.
Qed.

(** A run of decimal digits and [;]: one more parameter. *)
Lemma send_all_parameter self current params ds :
  _parser self = InCSI current params ->
  Forall (fun c => is_decimal c = true) (current ++ ds) ->
  Z.of_nat (length (current ++ ds)) <= int_max_str_digits ->
  send_all self (ds ++ [SEMICOLON]) =
  (set_parser
     (InCSI [] (params ++ [Z.min (digits_value (current ++ ds)) 9999])) self,
   Ret ()).
Proof.
  intros Hp Hds Hlen.
  assert (Hdig : Forall (fun c => isdigit c = true) ds).
  { apply Forall_app in Hds as [_ Hds].
    eapply Forall_impl; [exact Hds|]. intros c. apply is_decimal_isdigit. }
  rewrite send_all_app, (send_all_digits ds self current params Hp Hdig).
  simpl send_all. unfold _parse_corot. simpl _parser. cbv iota beta.
  change (isdigit SEMICOLON) with false. cbv iota.
  rewrite (int_or_0_decimals _ Hds Hlen).
  change (SEMICOLON =? SEMICOLON)%N with true. cbv iota.
  destruct self; reflexivity.
Qed.

(** A run of decimal digits and [m]: the last parameter, and the resolver. *)
Lemma send_all_terminator self current params ds :
  _parser self = InCSI current params ->
  Forall (fun c => is_decimal c = true) (current ++ ds) ->
  Z.of_nat (length (current ++ ds)) <= int_max_str_digits ->
  send_all self (ds ++ [LOWER_M]) =
  apply_sgr self (params ++ [Z.min (digits_value (current ++ ds)) 9999]).
Proof.
  intros Hp Hds Hlen.
  assert (Hdig : Forall (fun c => isdigit c = true) ds).
  { apply Forall_app in Hds as [_ Hds].
    eapply Forall_impl; [exact Hds|]. intros c. apply is_decimal_isdigit. }
  rewrite send_all_app, (send_all_digits ds self current params Hp Hdig).
  simpl send_all. unfold _parse_corot. simpl _parser. cbv iota beta.
  change (isdigit LOWER_M) with false. cbv iota.
  rewrite (int_or_0_decimals _ Hds Hlen).
  change (LOWER_M =? SEMICOLON)%N with false.
  change (LOWER_M =? LOWER_M)%N with true. cbv iota.
  rewrite apply_sgr_set_parser.
  destruct (apply_sgr self _) as [s [[]|e]]; reflexivity.
Qed.

(** *** Style and overstrike *)

(** A backspace in the [Normal] state with a token in the queue removes the
    last token, sets the flag, and makes the tag [Token.Standout2] when the
    removed character is an underscore, [Token.Standout] otherwise. *)
Lemma backspace_overstrikes_last self line_tokens t last_char :
  _parser self = Normal -> _line_tokens self = line_tokens ++ [(t, last_char)] ->
  _parse_corot self BACKSPACE =
  (set_token (if (last_char =? UNDERSCORE)%N then Token_Standout2 else Token_Standout)
     (set_replace_one_token true (set_line_tokens line_tokens self)), Ret ()).
Proof.
  intros Hp Hq. unfold _parse_corot. rewrite Hp, Hq, py_pop_snoc. reflexivity.
Qed.

(** X22.  [self._attrs] changes only when [m] ends a CSI sequence. *)
Lemma attrs_change_only_by_sgr self c :
  _attrs (_parse_corot self c).1 <> _attrs self ->
  exists current params, _parser self = InCSI current params /\ c = LOWER_M.
Proof.
  unfold _parse_corot. destruct (_parser self) as [| |current params|] eqn:Hp.
  - destruct (c =? BACKSPACE)%N.
    { destruct (py_pop _) as [[l [t ch]]|]; simpl; congruence. }
    destruct (c =? ESC)%N; [simpl; congruence|].
    destruct (c =? CSI_8BIT)%N; [simpl; congruence|].
    destruct self as [q e a f t []]; simpl; congruence.
  - destruct (c =? LBRACKET)%N; simpl; congruence.
  - destruct (isdigit c); [simpl; congruence|].
    destruct (int_or_0 current) as [v|e]; [|simpl; congruence].
    destruct (c =? SEMICOLON)%N; [simpl; congruence|].
    destruct (c =? LOWER_M)%N eqn:Hm; [|simpl; congruence].
    apply N.eqb_eq in Hm. eauto.
  - simpl. congruence.
Qed.

(** X23.  [replace_one_token] is never set back to [False]: once a
    backspace has set it, it stays set whatever is fed. *)
Lemma replace_one_token_sticky self c :
  replace_one_token self = true -> replace_one_token (_parse_corot self c).1 = true.
Proof.
  unfold _parse_corot. intros Hr. destruct (_parser self) as [| |current params|].
  - destruct (c =? BACKSPACE)%N.
    { destruct (py_pop _) as [[l [t ch]]|]; simpl; auto. }
    destruct (c =? ESC)%N; [exact Hr|].
    destruct (c =? CSI_8BIT)%N; [exact Hr|].
    simpl. rewrite Hr. exact Hr.
  - destruct (c =? LBRACKET)%N; exact Hr.
  - destruct (isdigit c); [exact Hr|].
    destruct (int_or_0 current) as [v|e]; [|exact Hr].
    destruct (c =? SEMICOLON)%N; [exact Hr|].
    destruct (c =? LOWER_M)%N; [|exact Hr].
    unfold apply_sgr.
    destruct (_select_graphic_rendition _ _) as [a [[]|e]]; exact Hr.
  - exact Hr.
Qed.

(** With the flag set, every ordinary character is queued with the current
    tag and then sets the tag to [Token], whatever [self._attrs] holds. *)
Lemma ordinary_character_resets_token self c :
  _parser self = Normal -> replace_one_token self = true ->
  c <> BACKSPACE -> c <> ESC -> c <> CSI_8BIT ->
  _parse_corot self c =
  (set_token Token (set_line_tokens (_line_tokens self ++ [(token self, c)]) self),
   Ret ()).
Proof.
  intros Hp Hr Hb He Hc. apply N.eqb_neq in Hb, He, Hc.
  unfold _parse_corot. rewrite Hp, Hb, He, Hc. simpl. rewrite Hr. reflexivity.
Qed.

(** *** Batches *)

Ltac agree := simpl; rewrite ?app_nil_r; repeat split; reflexivity.

(** A character other than backspace is decoded without looking at the
    queue: two objects whose decoders agree produce the same tokens and the
    same outcome, and their decoders agree afterwards. *)
Lemma send_same_decoder s1 s2 c :
  c <> BACKSPACE -> same_decoder s1 s2 ->
  exists out,
    _line_tokens (_parse_corot s1 c).1 = _line_tokens s1 ++ out
    /\ _line_tokens (_parse_corot s2 c).1 = _line_tokens s2 ++ out
    /\ (_parse_corot s1 c).2 = (_parse_corot s2 c).2
    /\ same_decoder (_parse_corot s1 c).1 (_parse_corot s2 c).1.
Proof.
  intros Hc (Ha & Hp & Ht & Hr). apply N.eqb_neq in Hc.
  destruct s1 as [q1 e1 a1 f1 t1 r1], s2 as [q2 e2 a2 f2 t2 r2].
  simpl in Ha, Hp, Ht, Hr. subst a2 f2 t2 r2.
  unfold _parse_corot, same_decoder. cbn [_parser].
  destruct f1 as [| |current params|].
  - rewrite Hc. destruct (c =? ESC)%N; [exists []; agree|].
    destruct (c =? CSI_8BIT)%N; [exists []; agree|].
    exists [(t1, c)]. destruct r1; agree.
  - exists []. destruct (c =? LBRACKET)%N; agree.
  - exists []. destruct (isdigit c); [agree|].
    destruct (int_or_0 current) as [v|e]; [|agree].
    destruct (c =? SEMICOLON)%N; [agree|].
    destruct (c =? LOWER_M)%N; [|agree].
    unfold apply_sgr. cbn [_attrs].
    destruct (_select_graphic_rendition a1 _) as [a [[]|e]]; agree.
  - exists []. agree.
Qed.

Lemma send_all_same_decoder data : forall s1 s2,
  BACKSPACE ∉ data -> same_decoder s1 s2 ->
  exists out,
    _line_tokens (send_all s1 data).1 = _line_tokens s1 ++ out
    /\ _line_tokens (send_all s2 data).1 = _line_tokens s2 ++ out
    /\ (send_all s1 data).2 = (send_all s2 data).2
    /\ same_decoder (send_all s1 data).1 (send_all s2 data).1.
Proof.
  induction data as [|c data IH]; intros s1 s2 Hb Hs.
  - exists []. simpl. rewrite !app_nil_r. repeat split; assumption || apply Hs.
  - apply not_elem_of_cons in Hb as [Hc Hb].
    destruct (send_same_decoder s1 s2 c (not_eq_sym Hc) Hs)
      as (out & H1 & H2 & Hres & Hs').
    simpl.
    destruct (_parse_corot s1 c) as [s1' res1], (_parse_corot s2 c) as [s2' res2].
    simpl in H1, H2, Hres, Hs'. subst res2.
    destruct res1 as [[]|e].
    + destruct (IH s1' s2' Hb Hs') as (out' & H1' & H2' & Hres' & Hs'').
      exists (out ++ out'). rewrite H1', H2', H1, H2, !app_assoc.
      repeat split; assumption || apply Hs''.
    + exists out. simpl. repeat split; assumption || apply Hs'.
Qed.

(** ** The claims *)

(** C1, as the code has it.  A CSI sequence ended by a character that is no
    digit, no [;] and no [m] emits no token and touches neither the queue nor
    the style, but it is not skipped: an exception reaches the caller
    ([Exception(str(char))], or [ValueError] when [int] refuses the digits
    collected), the generator is finished, and every later [send] raises
    [StopIteration]. *)
Theorem C1_malformed_terminator_raises self current params c :
  _parser self = InCSI current params ->
  isdigit c = false -> c <> SEMICOLON -> c <> LOWER_M ->
  _parse_corot self c =
    (set_parser Finished self,
     Raise (match int_or_0 current with Ret _ => Exception_ c | Raise e => e end))
  /\ forall c', _parse_corot (set_parser Finished self) c' =
                (set_parser Finished self, Raise StopIteration).
Proof.
  intros Hp Hd Hs Hm. split.
  - unfold _parse_corot. rewrite Hp, Hd.
    destruct (int_or_0 current); [|reflexivity].
    apply N.eqb_neq in Hs, Hm. rewrite Hs, Hm. reflexivity.
  - intros c'. apply send_Finished. reflexivity.
Qed.

(** C2, as far as the code has it.  Take an object whose queue is empty
    (a new one, or one whose last [read_chunk] returned).  When the stream
    holds no backspace and one [read_chunk] on the whole of it returns the
    tokens [tokens], the [read_chunk]s on the batches of any partition return
    too, and their token lists concatenate to [tokens]. *)
Theorem C2_split_invariance_without_backspace batches self self' tokens :
  BACKSPACE ∉ concat batches -> _line_tokens self = [] ->
  read_chunk self (concat batches) = (self', Ret tokens) ->
  exists self'' lists,
    read_chunks self batches = (self'', Ret lists) /\ concat lists = tokens.
Proof.
  intros Hb Hq Hone.
  assert (Hgen : forall batches s1 s2 s1',
    BACKSPACE ∉ concat batches -> same_decoder s1 s2 -> _line_tokens s2 = [] ->
    send_all s1 (concat batches) = (s1', Ret ()) ->
    exists s2' lists,
      read_chunks s2 batches = (s2', Ret lists)
      /\ _line_tokens s1' = _line_tokens s1 ++ concat lists).
  { clear. induction batches as [|b bs IH]; intros s1 s2 s1' Hb Hs Hq Hrun.
    - simpl in Hrun. injection Hrun as <-.
      exists s2, []. simpl. rewrite app_nil_r. auto.
    - simpl in Hb, Hrun. apply not_elem_of_app in Hb as [Hb Hbs].
      rewrite send_all_app in Hrun.
      set (s2e := match b with [] => set_eof true s2 | _ => s2 end).
      assert (Hs2e : same_decoder s1 s2e /\ _line_tokens s2e = []).
      { unfold s2e. destruct b; [destruct s2|]; auto. }
      destruct Hs2e as [Hs2e Hq2e].
      destruct (send_all_same_decoder b s1 s2e Hb Hs2e)
        as (out & H1 & H2 & Hres & Hs').
      simpl. unfold read_chunk. fold s2e.
      destruct (send_all s1 b) as [s1m res1], (send_all s2e b) as [s2m res2].
      simpl in H1, H2, Hres, Hs'. subst res2. rewrite Hq2e in H2. simpl in H2.
      destruct res1 as [[]|e]; [|discriminate].
      destruct (IH s1m (set_line_tokens [] s2m) s1' Hbs) as (s2' & lists & Hr & Hl).
      { destruct s2m; exact Hs'. }
      { reflexivity. }
      { exact Hrun. }
      rewrite Hr. exists s2', (_line_tokens s2m :: lists).
      split; [reflexivity|]. simpl. rewrite Hl, H1, H2, app_assoc. reflexivity. }
  unfold read_chunk in Hone.
  set (s1 := match concat batches with [] => set_eof true self | _ => self end) in Hone.
  assert (Hs1 : same_decoder s1 self /\ _line_tokens s1 = []).
  { unfold s1. destruct (concat batches); [destruct self|];
      unfold same_decoder; auto. }
  destruct Hs1 as [Hs1 Hq1].
  destruct (send_all s1 (concat batches)) as [s1' [[]|e]] eqn:Hrun; [|discriminate].
  injection Hone as <- <-.
  destruct (Hgen batches s1 self s1' Hb Hs1 Hq Hrun) as (s2' & lists & Hr & Hl).
  exists s2', lists. split; [exact Hr|]. rewrite Hl, Hq1. reflexivity.
Qed.

(** C5, at the input that fails.  When 38 or 48 is the last parameter, or
    is followed by 5 alone, the [pop] of line 184, 189 or 192 finds the list
    empty: the resolver raises [IndexError] instead of skipping the colour
    change, and [self._attrs] is not updated. *)
Theorem C5_truncated_palette_form_raises a attr :
  attr = 38 \/ attr = 48 -> not_a_colour_code attr ->
  _select_graphic_rendition a [attr] = (a, Raise IndexError)
  /\ _select_graphic_rendition a [attr; 5] = (a, Raise IndexError).
Proof.
  intros Hattr Hnc. unfold _select_graphic_rendition.
  split; rewrite sgr_loop_extended by assumption; reflexivity.
Qed.

(** C6.  In the [Normal] state with an empty queue a backspace changes
    nothing at all: no token, no change of style or flag, no exception. *)
Theorem C6_backspace_on_empty_queue self :
  _parser self = Normal -> _line_tokens self = [] ->
  _parse_corot self BACKSPACE = (self, Ret ()).
Proof.
  intros Hp Hq. unfold _parse_corot. rewrite Hp, Hq. reflexivity.
Qed.

(** C7.  ESC followed by any character other than [[] leaves the decoder
    exactly as it was, in the [Normal] state: nothing is queued and nothing
    is raised. *)
Theorem C7_unsupported_escape_ignored self c :
  _parser self = Normal -> c <> LBRACKET ->
  send_all self [ESC; c] = (self, Ret ()).
Proof.
  intros Hp Hc. apply N.eqb_neq in Hc.
  destruct self as [q e a f t r]; simpl in Hp; subst f.
  simpl. unfold _parse_corot; simpl. rewrite Hc. reflexivity.
Qed.

(** C8.  A decoder in the [Normal] state with the default style, fed
    [ESC [ 38;2;10;20;30 m] and then [w], queues [w] with the tag
    [('C', '0a141e', None, False, False, False, False, False)]: foreground
    [0a141e], everything else default. *)
Theorem C8_truecolor_foreground self :
  _parser self = Normal -> _attrs self = default_attrs ->
  not_a_colour_code 38 ->
  exists self',
    send_all self (ESC :: chars "[38;2;10;20;30mw") = (self', Ret ())
    /\ _line_tokens self' =
       _line_tokens self ++
       [(Token_C (mkAttrs (Some "0a141e") None false false false false false),
         0x77%N)].
Proof.
  intros Hp Ha H38.
  change (ESC :: chars "[38;2;10;20;30mw") with
    ([ESC; LBRACKET] ++ (chars "38" ++ [SEMICOLON]) ++ (chars "2" ++ [SEMICOLON])
     ++ (chars "10" ++ [SEMICOLON]) ++ (chars "20" ++ [SEMICOLON])
     ++ (chars "30" ++ [LOWER_M]) ++ [0x77%N]).
  rewrite send_all_app, (send_all_introducer self Hp).
  do 4 (rewrite send_all_app;
        erewrite send_all_parameter;
        [|reflexivity|repeat constructor|vm_compute; discriminate]).
  rewrite send_all_app.
  erewrite send_all_terminator;
    [|reflexivity|repeat constructor|vm_compute; discriminate].
  unfold apply_sgr.
  destruct self as [q e a f t r]; simpl in Hp, Ha; subst f a.
  cbn [_attrs set_parser app].
  change (_select_graphic_rendition default_attrs _)
    with (_select_graphic_rendition default_attrs [38; 2; 10; 20; 30]).
  rewrite truecolor_resolved by auto.
  cbn [Z.eqb Pos.eqb set_token set_attrs set_parser _line_tokens _eof _attrs
       _parser token replace_one_token send_all].
  unfold _parse_corot. cbn [_parser]. cbv iota.
  change (0x77 =? BACKSPACE)%N with false. change (0x77 =? ESC)%N with false.
  change (0x77 =? CSI_8BIT)%N with false. cbv iota zeta.
  eexists. split; [reflexivity|]. destruct r; reflexivity.
Qed.

(** C9, as the code has it.  In a decoder started by [__init__] and fed
    anything, a run of decimal digits that begins a parameter and is no
    longer than [int_max_str_digits] is pushed, clamped to 9999, when [;] or
    [m] arrives: [;] leaves an empty accumulator behind, [m] hands the
    parameters to the resolver, and every parameter is between 0 and 9999.
    (A longer run makes [int] raise [ValueError].) *)
Theorem C9_digit_run_clamped data self params ds :
  send_all init data = (self, Ret ()) ->
  _parser self = InCSI [] params ->
  Forall (fun c => is_decimal c = true) ds ->
  Z.of_nat (length ds) <= int_max_str_digits ->
  let pushed := params ++ [Z.min (digits_value ds) 9999] in
  send_all self (ds ++ [SEMICOLON]) = (set_parser (InCSI [] pushed) self, Ret ())
  /\ send_all self (ds ++ [LOWER_M]) = apply_sgr self pushed
  /\ Forall (fun p => 0 <= p <= 9999) pushed.
Proof.
  intros Hreach Hp Hds Hlen pushed.
  assert (Hb : Forall (fun p => 0 <= p <= 9999) params).
  { pose proof (send_all_params_bounded data init I) as H.
    rewrite Hreach in H. unfold params_bounded in H. simpl in H.
    rewrite Hp in H. exact H. }
  pose proof (digits_value_ge ds) as Hge.
  split; [|split].
  - exact (send_all_parameter self [] params ds Hp Hds Hlen).
  - exact (send_all_terminator self [] params ds Hp Hds Hlen).
  - apply Forall_app. split; [exact Hb|]. repeat constructor; lia.
Qed.

(** C10.  With a palette of at most 256 entries, a palette index outside
    0..255 makes [38;5;N] set the foreground, and [48;5;N] the background, to
    [None]; the call returns. *)
Theorem C10_palette_index_out_of_range a index :
  (length colors <= 256)%nat -> index < 0 \/ 255 < index ->
  not_a_colour_code 38 -> not_a_colour_code 48 ->
  _select_graphic_rendition a [38; 5; index] =
    (mkAttrs None (bgcolor a) (bold a) (underline a) (italic a) (blink a)
             (reverse a), Ret ())
  /\ _select_graphic_rendition a [48; 5; index] =
    (mkAttrs (color a) None (bold a) (underline a) (italic a) (blink a)
             (reverse a), Ret ()).
Proof.
  intros Hlen Hindex H38 H48. unfold _select_graphic_rendition.
  split; rewrite sgr_loop_extended by auto; cbn [Z.eqb Pos.eqb]; cbv zeta;
    rewrite (_256_colors_out_of_range index Hlen Hindex); reflexivity.
Qed.

(** ** Further properties of the resolver *)

(** The loop, one turn at a time. *)
Lemma sgr_loop_turn a r attr attrs :
  sgr_loop a r (attr :: attrs) =
  match sgr_turn attr attrs with
  | Turn ch rest =>
      let '(a', r') := apply_change ch a r in sgr_loop a' r' rest
  | TurnEnd => (a, Ret r)
  | TurnIndexError => (a, Raise IndexError)
  end.
Proof.
  cbn [sgr_loop]. unfold sgr_turn.
  destruct (_fg_colors !! attr); [reflexivity|].
  destruct (_bg_colors !! attr); [reflexivity|].
  repeat (match goal with
          | |- context [if ?b then _ else _] => destruct b; try reflexivity
          end).
  all: repeat (match goal with
               | |- context [match ?l with [] => _ | _ :: _ => _ end] =>
                   destruct l; try reflexivity
               | |- context [if ?b then _ else _] => destruct b; try reflexivity
               end).
Qed.

(** A turn consumes parameters and adds none. *)
Lemma sgr_turn_rest attr attrs ch rest :
  sgr_turn attr attrs = Turn ch rest -> exists k, rest = drop k attrs.
Proof.
  unfold sgr_turn.
  destruct (_fg_colors !! attr); [intros [= _ <-]; exists 0%nat; reflexivity|].
  destruct (_bg_colors !! attr); [intros [= _ <-]; exists 0%nat; reflexivity|].
  repeat (match goal with
          | |- context [if (attr =? ?k) then _ else _] =>
              destruct (attr =? k);
              [intros [= _ <-]; exists 0%nat; reflexivity|]
          end).
  destruct ((attr =? 38) || (attr =? 48));
    [|intros [= _ <-]; exists 0%nat; reflexivity].
  destruct attrs as [|n attrs]; [discriminate|].
  destruct (n =? 5).
  { destruct attrs as [|m attrs]; [discriminate|].
    intros [= _ <-]. exists 2%nat. reflexivity. }
  destruct (n =? 2); [|intros [= _ <-]; exists 1%nat; reflexivity].
  destruct attrs as [|x [|y [|z attrs]]]; try discriminate.
  intros [= _ <-]. exists 4%nat. reflexivity.
Qed.

Lemma sgr_turn_shorter attr attrs ch rest :
  sgr_turn attr attrs = Turn ch rest -> (length rest <= length attrs)%nat.
Proof.
  intros H. apply sgr_turn_rest in H as [k ->]. rewrite length_drop. lia.
Qed.

Lemma later_assoc {A : Type} (y x r : option A) :
  later y (later x r) = later (later y x) r.
Proof. destruct y; reflexivity. Qed.

Lemma later_idem {A : Type} (d r : option A) : later d (later d r) = later d r.
Proof. destruct d; reflexivity. Qed.

Lemma merge_assoc r x y : merge (merge r x) y = merge r (merge x y).
Proof. unfold merge; simpl. f_equal; apply later_assoc. Qed.

Lemma merge_no_replace_l d : merge no_replace d = d.
Proof.
  destruct d as [c b o u i k v]. unfold merge; simpl.
  f_equal; match goal with |- later ?x None = _ => destruct x; reflexivity end.
Qed.

Lemma merge_no_replace_r r : merge r no_replace = r.
Proof. destruct r; reflexivity. Qed.

Lemma default_later {A : Type} (x : A) (d r : option A) :
  default x (later d r) = default (default x r) d.
Proof. destruct d; reflexivity. Qed.

Lemma _replace_merge a r d : _replace a (merge r d) = _replace (_replace a r) d.
Proof. unfold _replace, merge; simpl. f_equal; apply default_later. Qed.

Lemma _replace_idem a d : _replace (_replace a d) d = _replace a d.
Proof.
  unfold _replace; simpl.
  f_equal; match goal with |- default _ ?x = _ => destruct x; reflexivity end.
Qed.

Lemma apply_change_spec ch a r :
  apply_change ch a r =
  if resets ch then (default_attrs, no_replace) else (a, merge r (delta ch)).
Proof. destruct ch, r; reflexivity. Qed.

(** What a parameter list does is the same for every starting point: it
    either raises [IndexError], or resets or not and adds fixed pending
    changes. *)
Lemma sgr_loop_summary ps :
  exists (reset ok : bool) (d : Replace), forall a r,
    sgr_loop a r ps =
    (if reset then default_attrs else a,
     if ok then Ret (if reset then d else merge r d) else Raise IndexError).
Proof.
  remember (length ps) as n eqn:Hn.
  revert ps Hn. induction n as [n IH] using lt_wf_ind. intros ps Hn.
  destruct ps as [|attr attrs].
  { exists false, true, no_replace. intros a r.
    rewrite merge_no_replace_r. reflexivity. }
  destruct (sgr_turn attr attrs) as [ch rest| |] eqn:Hturn.
  - pose proof (sgr_turn_shorter _ _ _ _ Hturn) as Hlen.
    destruct (IH (length rest) ltac:(simpl in Hn; lia) rest eq_refl)
      as (reset' & ok' & d' & Hrest).
    exists (reset' || resets ch), ok',
      (if reset' then d' else if resets ch then d' else merge (delta ch) d').
    intros a r. rewrite sgr_loop_turn, Hturn, apply_change_spec.
    destruct (resets ch); cbv zeta iota beta; rewrite Hrest;
      destruct reset', ok'; simpl;
      rewrite ?merge_no_replace_l, ?merge_assoc; reflexivity.
  - exists false, true, no_replace. intros a r.
    rewrite sgr_loop_turn, Hturn, merge_no_replace_r. reflexivity.
  - exists false, false, no_replace. intros a r.
    rewrite sgr_loop_turn, Hturn. reflexivity.
Qed.

(** A code other than 38 and 48 takes one turn and consumes nothing else. *)
Lemma sgr_turn_plain attr attrs :
  attr <> 38 -> attr <> 48 -> exists ch, sgr_turn attr attrs = Turn ch attrs.
Proof.
  intros H38 H48. apply Z.eqb_neq in H38, H48.
  unfold sgr_turn. rewrite H38, H48. simpl.
  destruct (_fg_colors !! attr); [eauto|].
  destruct (_bg_colors !! attr); [eauto|].
  repeat (match goal with
          | |- context [if (attr =? ?k) then _ else _] =>
              destruct (attr =? k); [eauto|]
          end).
  eauto.
Qed.

(** A list without 38 and 48 is consumed parameter by parameter, so a list
    that begins with it is processed as the two parts in turn. *)
Lemma sgr_loop_app ps1 : forall a r ps2,
  no_extended_colour ps1 ->
  exists a1 r1,
    sgr_loop a r ps1 = (a1, Ret r1)
    /\ sgr_loop a r (ps1 ++ ps2) = sgr_loop a1 r1 ps2.
Proof.
  induction ps1 as [|attr ps1 IH]; intros a r ps2 Hps.
  - exists a, r. split; reflexivity.
  - inversion Hps as [|? ? [H38 H48] Hps']; subst.
    simpl app. rewrite !sgr_loop_turn.
    destruct (sgr_turn_plain attr ps1 H38 H48) as [ch Hch].
    destruct (sgr_turn_plain attr (ps1 ++ ps2) H38 H48) as [ch' Hch'].
    assert (ch' = ch) as ->.
    { revert Hch Hch'. unfold sgr_turn.
      apply Z.eqb_neq in H38, H48. rewrite H38, H48. simpl.
      destruct (_fg_colors !! attr); [congruence|].
      destruct (_bg_colors !! attr); [congruence|].
      repeat (match goal with
              | |- context [if (attr =? ?k) then _ else _] =>
                  destruct (attr =? k); [congruence|]
              end).
      congruence. }
    rewrite Hch, Hch'. destruct (apply_change ch a r) as [a' r'].
    apply IH. exact Hps'.
Qed.

(** X1.  A parameter list without 38 and 48 never makes the resolver raise:
    the call returns. *)
Theorem sgr_returns_without_extended_colour a ps :
  no_extended_colour ps ->
  exists a', _select_graphic_rendition a ps = (a', Ret ()).
Proof.
  intros Hps. unfold _select_graphic_rendition.
  set (ps' := match ps with [] => [0] | _ => ps end).
  assert (Hps' : no_extended_colour ps').
  { unfold ps'. destruct ps; [|exact Hps]. repeat constructor; lia. }
  destruct (sgr_loop_app ps' a no_replace [] Hps') as (a1 & r1 & Hrun & _).
  rewrite Hrun. eauto.
Qed.

(** X2.  Everything before a reset is forgotten: when code 0 follows
    parameters without 38 and 48, the outcome (style, or the state an
    [IndexError] leaves behind) is that of the list from the 0 on, whatever
    the style was before the call. *)
Theorem sgr_reset_forgets a b pre post :
  not_a_colour_code 0 -> no_extended_colour pre ->
  _select_graphic_rendition a (pre ++ 0 :: post) =
  _select_graphic_rendition b (0 :: post).
Proof.
  intros [Hfg Hbg] Hpre. unfold _select_graphic_rendition.
  assert (Hne : forall l, match pre ++ 0 :: l with [] => [0] | _ => pre ++ 0 :: l end
                          = pre ++ 0 :: l) by (intros l; destruct pre; reflexivity).
  rewrite Hne.
  destruct (sgr_loop_app pre a no_replace (0 :: post) Hpre) as (a1 & r1 & _ & ->).
  rewrite !sgr_loop_turn. unfold sgr_turn. rewrite Hfg, Hbg. reflexivity.
Qed.

(** X3.  One sequence with the parameters [ps1 ++ ps2] does what the two
    sequences [ps1] and [ps2] do one after the other, when [ps1] holds no 38
    and no 48 and the resolver returns. *)
Theorem sgr_two_sequences a ps1 ps2 :
  no_extended_colour ps1 -> ps1 <> [] -> ps2 <> [] ->
  (_select_graphic_rendition a (ps1 ++ ps2)).2 = Ret () ->
  _select_graphic_rendition (_select_graphic_rendition a ps1).1 ps2 =
  _select_graphic_rendition a (ps1 ++ ps2).
Proof.
  intros Hps1 Hne1 Hne2. unfold _select_graphic_rendition.
  replace (match ps1 ++ ps2 with [] => [0] | _ => ps1 ++ ps2 end)
    with (ps1 ++ ps2) by (destruct ps1; [congruence|reflexivity]).
  replace (match ps1 with [] => [0] | _ => ps1 end)
    with ps1 by (destruct ps1; [congruence|reflexivity]).
  replace (match ps2 with [] => [0] | _ => ps2 end)
    with ps2 by (destruct ps2; [congruence|reflexivity]).
  destruct (sgr_loop_app ps1 a no_replace ps2 Hps1) as (a1 & r1 & -> & ->).
  destruct (sgr_loop_summary ps2) as (reset & ok & d & Hsum).
  rewrite !Hsum. cbn [fst]. destruct ok; [|discriminate]. intros _.
  destruct reset; [reflexivity|].
  rewrite merge_no_replace_l, _replace_merge. reflexivity.
Qed.

(** X4.  Applying the same parameter list a second time changes nothing. *)
Theorem sgr_idempotent a ps a' :
  _select_graphic_rendition a ps = (a', Ret ()) ->
  _select_graphic_rendition a' ps = (a', Ret ()).
Proof.
  unfold _select_graphic_rendition.
  destruct (sgr_loop_summary (match ps with [] => [0] | _ => ps end))
    as (reset & ok & d & Hsum).
  rewrite !Hsum. destruct ok; [|discriminate].
  rewrite merge_no_replace_l. intros [= <-].
  destruct reset; [reflexivity|]. rewrite _replace_idem. reflexivity.
Qed.

(** Which codes can switch a boolean attribute off or reset. *)
Lemma sgr_turn_clearing attr attrs ch rest :
  sgr_turn attr attrs = Turn ch rest ->
  match ch with
  | ResetAll => attr = 0
  | SetBold false => attr = 22
  | SetItalic false => attr = 23
  | SetUnderline false => attr = 24
  | SetBlink false => attr = 25
  | SetReverse false => attr = 27
  | _ => True
  end.
Proof.
  unfold sgr_turn.
  destruct (_fg_colors !! attr); [intros [= <- _]; exact I|].
  destruct (_bg_colors !! attr); [intros [= <- _]; exact I|].
  repeat (match goal with
          | |- context [if (attr =? ?k) then _ else _] =>
              destruct (attr =? k) eqn:?;
              [intros [= <- _]; first [exact I | apply Z.eqb_eq; assumption]|]
          end).
  destruct ((attr =? 38) || (attr =? 48)); [|intros [= <- _]; exact I].
  destruct attrs as [|n attrs]; [discriminate|].
  destruct (n =? 5).
  { destruct attrs as [|m attrs]; [discriminate|].
    intros [= <- _]. destruct (attr =? 38); exact I. }
  destruct (n =? 2); [|intros [= <- _]; exact I].
  destruct attrs as [|x [|y [|z attrs]]]; try discriminate.
  intros [= <- _]. destruct (attr =? 38); exact I.
Qed.

Lemma sgr_loop_keeps_flag f : forall n ps a r a2 r2,
  length ps = n ->
  get_flag f (_replace a r) = true -> off_code f ∉ ps -> 0 ∉ ps ->
  sgr_loop a r ps = (a2, Ret r2) ->
  get_flag f (_replace a2 r2) = true.
Proof.
  induction n as [n IH] using lt_wf_ind.
  intros ps a r a2 r2 Hn Hflag Hoff Hzero Hrun.
  destruct ps as [|attr attrs]; [injection Hrun as <- <-; exact Hflag|].
  apply not_elem_of_cons in Hoff as [Hoff Hoffs].
  apply not_elem_of_cons in Hzero as [Hzero Hzeros].
  rewrite sgr_loop_turn in Hrun.
  destruct (sgr_turn attr attrs) as [ch rest| |] eqn:Hturn.
  - pose proof (sgr_turn_shorter _ _ _ _ Hturn) as Hlen.
    pose proof (sgr_turn_clearing _ _ _ _ Hturn) as Hclear.
    apply sgr_turn_rest in Hturn as [k ->].
    destruct (apply_change ch a r) as [a1 r1] eqn:Hch.
    eapply (IH (length (drop k attrs)) ltac:(simpl in Hn; lia));
      [reflexivity| |intros H; apply Hoffs; exact (subseteq_drop _ _ _ H)
      |intros H; apply Hzeros; exact (subseteq_drop _ _ _ H)|exact Hrun].
    destruct ch as [| |v|v|[]|[]|[]|[]|[]], f; simpl in Hch, Hclear;
      injection Hch as <- <-; simpl in *; congruence.
  - injection Hrun as <- <-. exact Hflag.
  - discriminate.
Qed.

(** X5.  A boolean attribute that is set stays set unless the list holds its
    off code or the reset code 0 (the empty list stands for 0). *)
Theorem sgr_keeps_flag f a ps a' :
  get_flag f a = true -> off_code f ∉ ps -> 0 ∉ ps -> ps <> [] ->
  _select_graphic_rendition a ps = (a', Ret ()) ->
  get_flag f a' = true.
Proof.
  intros Hflag Hoff Hzero Hne. unfold _select_graphic_rendition.
  replace (match ps with [] => [0] | _ => ps end)
    with ps by (destruct ps; [congruence|reflexivity]).
  destruct (sgr_loop a no_replace ps) as [a2 [r2|e]] eqn:Hrun; [|discriminate].
  intros [= <-].
  eapply (sgr_loop_keeps_flag f (length ps) ps a no_replace); eauto;
    rewrite _replace_no_replace; exact Hflag.
Qed.

(** X6.  Codes the resolver has no branch for are ignored: a non-empty list
    of them returns with the style as it was. *)
Theorem sgr_ignores_unknown_codes a ps :
  Forall unknown_code_ ps -> ps <> [] ->
  _select_graphic_rendition a ps = (a, Ret ()).
Proof.
  intros Hps Hne. unfold _select_graphic_rendition.
  replace (match ps with [] => [0] | _ => ps end)
    with ps by (destruct ps; [congruence|reflexivity]).
  assert (Hloop : forall r, sgr_loop a r ps = (a, Ret r)).
  { clear Hne. induction Hps as [|attr attrs [[Hfg Hbg] Hattr] _ IH]; intros r.
    - reflexivity.
    - rewrite sgr_loop_turn. unfold sgr_turn. rewrite Hfg, Hbg.
      repeat (match goal with
              | |- context [if (attr =? ?k) then _ else _] =>
                  destruct (Z.eqb_spec attr k) as [->|_];
                  [exfalso; apply Hattr; set_solver|]
              end).
      destruct (Z.eqb_spec attr 38) as [->|_]; [exfalso; apply Hattr; set_solver|].
      destruct (Z.eqb_spec attr 48) as [->|_]; [exfalso; apply Hattr; set_solver|].
      simpl. apply IH. }
  rewrite Hloop, _replace_no_replace. reflexivity.
Qed.

(** X7.  A palette index that the palette has: [38;5;m] sets the foreground,
    [48;5;m] the background, to the hexadecimal form of the [m]-th triple. *)
Theorem sgr_palette_colour a attr m r g b :
  attr = 38 \/ attr = 48 -> not_a_colour_code attr ->
  0 <= m -> colors !! Z.to_nat m = Some (r, g, b) ->
  _select_graphic_rendition a [attr; 5; m] =
    (if attr =? 38
     then mkAttrs (Some (format_rgb r g b)) (bgcolor a) (bold a) (underline a)
                  (italic a) (blink a) (reverse a)
     else mkAttrs (color a) (Some (format_rgb r g b)) (bold a) (underline a)
                  (italic a) (blink a) (reverse a), Ret ()).
Proof.
  intros Hattr Hnc Hm Hcol. unfold _select_graphic_rendition.
  rewrite sgr_loop_extended by assumption. cbn [Z.eqb Pos.eqb]. cbv zeta.
  rewrite _256_colors_get, Hcol.
  destruct (decide (0 <= m)); [|lia].
  destruct Hattr; subst attr; reflexivity.
Qed.

Lemma elem_of_rev {A : Type} (x : A) (l : list A) : x ∈ rev l <-> x ∈ l.
Proof. rewrite !list_elem_of_In. symmetry. apply in_rev. Qed.

(** X8.  The inverted dictionaries hold what the imported ones hold: a code
    is mapped to a name that has this code, and every code of a name is a
    key. *)
Theorem invert_lookup d :
  (forall code name, invert d !! code = Some name -> d !! name = Some code)
  /\ (forall name code, d !! name = Some code ->
        exists name', invert d !! code = Some name' /\ d !! name' = Some code).
Proof.
  assert (Hsound : forall code name,
            invert d !! code = Some name -> d !! name = Some code).
  { intros code name H. unfold invert in H.
    apply elem_of_list_to_map_2 in H.
    apply (proj1 (elem_of_rev _ _)) in H.
    apply list_elem_of_fmap in H as ([k v] & [= -> ->] & H).
    apply elem_of_map_to_list in H. exact H. }
  split; [exact Hsound|].
  intros name code H.
  destruct (invert d !! code) as [name'|] eqn:Hinv; [eauto|].
  exfalso. unfold invert in Hinv.
  apply not_elem_of_list_to_map_2 in Hinv. apply Hinv.
  apply list_elem_of_fmap. exists (code, name). split; [reflexivity|].
  apply (proj2 (elem_of_rev _ _)).
  apply list_elem_of_fmap. exists (name, code). split; [reflexivity|].
  apply elem_of_map_to_list. exact H.
Qed.

(** X24.  The palette dictionary has the keys 1024, 1025, ... one for each
    triple of the palette and no other key; the key [1024 + i] holds the
    hexadecimal form of the [i]-th triple. *)
Theorem _256_colors_keys key value :
  _256_colors !! key = Some value <->
  exists i r g b,
    key = 1024 + Z.of_nat i /\ colors !! i = Some (r, g, b)
    /\ value = format_rgb r g b.
Proof.
  replace key with (1024 + (key - 1024)) at 1 by lia.
  rewrite _256_colors_get. split.
  - destruct (decide (0 <= key - 1024)) as [Hk|Hk]; [|discriminate].
    destruct (colors !! Z.to_nat (key - 1024)) as [[[r g] b]|] eqn:Hc;
      [|discriminate].
    intros [= <-]. exists (Z.to_nat (key - 1024)), r, g, b.
    repeat split; [lia|exact Hc].
  - intros (i & r & g & b & -> & Hc & ->).
    destruct (decide (0 <= 1024 + Z.of_nat i - 1024)) as [_|Hk]; [|lia].
    replace (Z.to_nat (1024 + Z.of_nat i - 1024)) with i by lia.
    rewrite Hc. reflexivity.
Qed.

(** ** Further properties of the colour strings *)

Lemma format_02x_decodes n :
  0 <= n -> HexString.Raw.to_N (format_02x n) 0%N = Z.to_N n.
Proof.
  intros Hn. destruct n as [|p|p]; [reflexivity| |lia].
  unfold format_02x.
  pose proof (HexString.Raw.to_N_of_pos p EmptyString 0%N) as Hp.
  destruct (String.length (HexString.Raw.of_pos p EmptyString) <? 2)%nat;
    exact Hp.
Qed.

(** X9.  Reading the string ['%02x' % n] back as a hexadecimal number gives
    [n], for every [n] that is not negative: distinct components never get
    the same string. *)
Theorem format_02x_round_trip n m :
  0 <= n -> 0 <= m ->
  HexString.Raw.to_N (format_02x n) 0%N = Z.to_N n
  /\ (format_02x n = format_02x m -> n = m).
Proof.
  intros Hn Hm. split; [exact (format_02x_decodes n Hn)|].
  intros Heq.
  pose proof (format_02x_decodes n Hn) as H1.
  pose proof (format_02x_decodes m Hm) as H2.
  rewrite Heq in H1. lia.
Qed.

Lemma ascii_to_digit_bound ch v :
  HexString.ascii_to_digit ch = Some v -> (v < 16)%N.
Proof.
  destruct ch as [[] [] [] [] [] [] [] []]; vm_compute;
    intros H; try discriminate H; injection H as <-; reflexivity.
Qed.

(** A string of at most two characters reads as a number below 256. *)
Lemma to_N_short s :
  (String.length s <= 2)%nat -> (HexString.Raw.to_N s 0 < 256)%N.
Proof.
  destruct s as [|c1 [|c2 [|c3 s]]]; simpl; intros Hlen; try lia.
  - destruct (HexString.ascii_to_digit c1) as [v1|] eqn:H1; [|lia].
    apply ascii_to_digit_bound in H1. lia.
  - destruct (HexString.ascii_to_digit c1) as [v1|] eqn:H1;
      destruct (HexString.ascii_to_digit c2) as [v2|] eqn:H2; try lia;
      try apply ascii_to_digit_bound in H1;
      try apply ascii_to_digit_bound in H2; lia.
Qed.

(** The string has two characters exactly for the numbers 0..255, and more
    for the larger ones. *)
Lemma format_02x_length n :
  0 <= n ->
  (2 <= String.length (format_02x n))%nat
  /\ (String.length (format_02x n) = 2%nat <-> n <= 255).
Proof.
  intros Hn.
  assert (Hge : (2 <= String.length (format_02x n))%nat).
  { destruct n as [|p|p]; [simpl; lia| |lia].
    unfold format_02x.
    destruct (String.length (HexString.Raw.of_pos p EmptyString) <? 2)%nat eqn:Hlt.
    - pose proof (HexString.Raw.to_N_of_pos p EmptyString 0%N) as Hp.
      destruct (HexString.Raw.of_pos p EmptyString); [discriminate Hp|].
      simpl. lia.
    - apply Nat.ltb_ge in Hlt. exact Hlt. }
  split; [exact Hge|]. split.
  - intros Hlen.
    pose proof (to_N_short (format_02x n) ltac:(lia)) as Hb.
    rewrite (format_02x_decodes n Hn) in Hb. lia.
  - intros Hle.
    assert (Hall : forallb (fun k => String.length (format_02x (Z.of_nat k)) =? 2)%nat
                     (seq 0 256) = true) by (vm_compute; reflexivity).
    rewrite forallb_forall in Hall.
    specialize (Hall (Z.to_nat n)).
    rewrite Z2Nat.id in Hall by exact Hn.
    apply Nat.eqb_eq, Hall, in_seq. lia.
Qed.

Lemma string_length_app s1 s2 :
  String.length (s1 +:+ s2) = (String.length s1 + String.length s2)%nat.
Proof. induction s1 as [|c s1 IH]; simpl; [reflexivity|]. rewrite IH. reflexivity. Qed.

(** X10.  The colour string of a truecolor form has six characters exactly
    when the three components are at most 255; a larger component, which the
    clamp at 9999 lets through, makes it longer. *)
Theorem format_rgb_length r g b :
  0 <= r -> 0 <= g -> 0 <= b ->
  (String.length (format_rgb r g b) = 6%nat <-> r <= 255 /\ g <= 255 /\ b <= 255)
  /\ (6 <= String.length (format_rgb r g b))%nat.
Proof.
  intros Hr Hg Hb. unfold format_rgb.
  rewrite !string_length_app.
  destruct (format_02x_length r Hr) as [Hr2 Hr'].
  destruct (format_02x_length g Hg) as [Hg2 Hg'].
  destruct (format_02x_length b Hb) as [Hb2 Hb'].
  split; [|lia]. split.
  - intros Hlen. rewrite <- Hr', <- Hg', <- Hb'. lia.
  - intros (H1 & H2 & H3). apply Hr' in H1. apply Hg' in H2. apply Hb' in H3. lia.
Qed.

(** ** Further properties of the decoder *)

(** X11.  A complete SGR sequence, introduced by [ESC [] or by the single
    character 0x9b and made of runs of decimal digits (empty runs included)
    separated by [;] and ended by [m], none of them longer than
    [int_max_str_digits], calls the resolver once, with the run values
    clamped to 9999, in order. *)
Theorem csi_sequence_parsed self runs :
  _parser self = Normal -> runs <> [] ->
  Forall (Forall (fun c => is_decimal c = true)) runs ->
  Forall (fun ds => Z.of_nat (length ds) <= int_max_str_digits) runs ->
  send_all self (ESC :: LBRACKET :: csi_body runs) =
    apply_sgr self (map parameter runs)
  /\ send_all self (CSI_8BIT :: csi_body runs) =
    apply_sgr self (map parameter runs).
Proof.
  intros Hp Hne Hruns Hlens.
  assert (Hbody : forall runs s params,
    runs <> [] -> Forall (Forall (fun c => is_decimal c = true)) runs ->
    Forall (fun ds => Z.of_nat (length ds) <= int_max_str_digits) runs ->
    _parser s = InCSI [] params ->
    send_all s (csi_body runs) = apply_sgr s (params ++ map parameter runs)).
  { clear. induction runs as [|ds runs IH]; intros s params Hne Hruns Hlens Hs;
      [congruence|].
    inversion Hruns as [|? ? Hds Hruns']; subst.
    inversion Hlens as [|? ? Hlen Hlens']; subst.
    destruct runs as [|ds' runs].
    - simpl. exact (send_all_terminator s [] params ds Hs Hds Hlen).
    - change (csi_body (ds :: ds' :: runs))
        with (ds ++ SEMICOLON :: csi_body (ds' :: runs)).
      rewrite cons_middle, app_assoc.
      rewrite send_all_app, (send_all_parameter s [] params ds Hs Hds Hlen).
      rewrite (IH _ (params ++ [parameter ds]));
        [|congruence|exact Hruns'|exact Hlens'|reflexivity].
      rewrite apply_sgr_set_parser, <- app_assoc. reflexivity. }
  assert (Hstart : send_all (set_parser (InCSI [] []) self) (csi_body runs) =
                   apply_sgr self (map parameter runs)).
  { rewrite (Hbody runs _ []); [|exact Hne|exact Hruns|exact Hlens|reflexivity].
    apply apply_sgr_set_parser. }
  split.
  - change (ESC :: LBRACKET :: csi_body runs)
      with ([ESC; LBRACKET] ++ csi_body runs).
    rewrite send_all_app, (send_all_introducer self Hp). exact Hstart.
  - simpl. unfold _parse_corot at 1. rewrite Hp. simpl. exact Hstart.
Qed.

(** X12.  Plain text: from the [Normal] state with the flag clear, a stream
    of ordinary characters is queued character by character, each with the
    current tag, and nothing else changes. *)
Theorem plain_text_queued data : forall self,
  _parser self = Normal -> replace_one_token self = false ->
  Forall ordinary data ->
  send_all self data =
  (set_line_tokens (_line_tokens self ++ map (pair (token self)) data) self,
   Ret ()).
Proof.
  induction data as [|c data IH]; intros self Hp Hr Hdata.
  - simpl. rewrite app_nil_r. destruct self; reflexivity.
  - inversion Hdata as [|? ? (Hb & He & Hc) Hdata']; subst.
    apply N.eqb_neq in Hb, He, Hc.
    simpl. unfold _parse_corot at 1. rewrite Hp, Hb, He, Hc. simpl.
    rewrite Hr. rewrite IH; [|exact Hp|exact Hr|exact Hdata'].
    simpl. rewrite <- app_assoc. reflexivity.
Qed.

(** An ordinary character in the [Normal] state (lines 131 to 133). *)
Lemma ordinary_character_queued self c :
  _parser self = Normal -> ordinary c ->
  _parse_corot self c =
  (let self' :=
     set_line_tokens (_line_tokens self ++ [(token self, c)]) self in
   if replace_one_token self then set_token Token self' else self', Ret ()).
Proof.
  intros Hp (Hb & He & Hc). apply N.eqb_neq in Hb, He, Hc.
  unfold _parse_corot. rewrite Hp, Hb, He, Hc. reflexivity.
Qed.

(** X13.  Overstrike: from the [Normal] state, an ordinary character, a
    backspace and a second ordinary character queue the second character
    alone, with [Token.Standout2] when the first is an underscore and
    [Token.Standout] otherwise; the flag is set and the tag is [Token]
    afterwards. *)
Theorem overstrike_pair self c1 c2 :
  _parser self = Normal -> ordinary c1 -> ordinary c2 ->
  send_all self [c1; BACKSPACE; c2] =
  (set_token Token
     (set_replace_one_token true
        (set_line_tokens
           (_line_tokens self ++
            [(if (c1 =? UNDERSCORE)%N then Token_Standout2 else Token_Standout,
              c2)]) self)),
   Ret ()).
Proof.
  intros Hp Hc1 Hc2.
  cbn [send_all]. rewrite (ordinary_character_queued self c1 Hp Hc1).
  set (s1 := if replace_one_token self then _ else _).
  assert (Hs1 : _parser s1 = Normal
                /\ _line_tokens s1 = _line_tokens self ++ [(token self, c1)]).
  { unfold s1. destruct (replace_one_token self); split;
      first [exact Hp | reflexivity]. }
  destruct Hs1 as [Hp1 Hq1].
  rewrite (backspace_overstrikes_last s1 _ _ _ Hp1 Hq1).
  rewrite ordinary_character_queued; [|exact Hp1|exact Hc2].
  unfold s1. destruct self as [q e a f t []]; reflexivity.
Qed.

Lemma py_pop_Some {A : Type} (l l' : list A) (x : A) :
  py_pop l = Some (l', x) -> l = l' ++ [x].
Proof.
  revert l'. induction l as [|y l IH]; intros l'; simpl; [discriminate|].
  destruct (py_pop l) as [[l'' z]|] eqn:Hpop.
  - intros [= <- <-]. rewrite (IH l'' eq_refl). reflexivity.
  - intros [= <- <-]. destruct l as [|w l]; [reflexivity|].
    simpl in Hpop. destruct (py_pop l) as [[? ?]|]; discriminate.
Qed.

(** X14.  One character changes the queue by at most one token, at its end:
    the queue stays as it is, or the character is appended with the current
    tag, or a backspace removes the last token.  The last two happen in the
    [Normal] state only. *)
Theorem queue_changes_at_the_end self c :
  let self' := (_parse_corot self c).1 in
  _line_tokens self' = _line_tokens self
  \/ (_parser self = Normal
      /\ _line_tokens self' = _line_tokens self ++ [(token self, c)])
  \/ (_parser self = Normal /\ c = BACKSPACE
      /\ exists x, _line_tokens self = _line_tokens self' ++ [x]).
Proof.
  unfold _parse_corot. destruct (_parser self) as [| |current params|] eqn:Hp.
  - destruct (N.eqb_spec c BACKSPACE) as [->|_].
    { destruct (py_pop (_line_tokens self)) as [[l [t ch]]|] eqn:Hpop.
      - right. right. repeat split. exists (t, ch). simpl.
        exact (py_pop_Some _ _ _ Hpop).
      - left. reflexivity. }
    destruct (c =? ESC)%N; [left; reflexivity|].
    destruct (c =? CSI_8BIT)%N; [left; reflexivity|].
    right. left. split; [reflexivity|].
    destruct self as [q e a f t []]; reflexivity.
  - left. destruct (c =? LBRACKET)%N; reflexivity.
  - left. destruct (isdigit c); [reflexivity|].
    destruct (int_or_0 current) as [v|e]; [|reflexivity].
    destruct (c =? SEMICOLON)%N; [reflexivity|].
    destruct (c =? LOWER_M)%N; [|reflexivity].
    unfold apply_sgr.
    destruct (_select_graphic_rendition _ _) as [a [[]|e]]; reflexivity.
  - left. reflexivity.
Qed.

(** An exception always leaves the generator finished. *)
Lemma raise_finishes self c e :
  (_parse_corot self c).2 = Raise e -> _parser (_parse_corot self c).1 = Finished.
Proof.
  unfold _parse_corot. destruct (_parser self) as [| |current params|] eqn:Hp.
  - destruct (c =? BACKSPACE)%N.
    { destruct (py_pop _) as [[l [t ch]]|]; discriminate. }
    destruct (c =? ESC)%N; [discriminate|].
    destruct (c =? CSI_8BIT)%N; discriminate.
  - destruct (c =? LBRACKET)%N; discriminate.
  - destruct (isdigit c); [discriminate|].
    destruct (int_or_0 current) as [v|e']; [|reflexivity].
    destruct (c =? SEMICOLON)%N; [discriminate|].
    destruct (c =? LOWER_M)%N; [|reflexivity].
    unfold apply_sgr.
    destruct (_select_graphic_rendition _ _) as [a [[]|e']];
      [discriminate|reflexivity].
  - intros _. exact Hp.
Qed.

Lemma send_all_raise_finishes data : forall self e,
  (send_all self data).2 = Raise e -> _parser (send_all self data).1 = Finished.
Proof.
  induction data as [|c data IH]; intros self e; simpl; [discriminate|].
  pose proof (raise_finishes self c) as Hc.
  destruct (_parse_corot self c) as [self' [[]|e']]; simpl in *; [apply IH|eauto].
Qed.

(** The generator never touches the end-of-input flag. *)
Lemma send_all_eof data : forall self, _eof (send_all self data).1 = _eof self.
Proof.
  induction data as [|c data IH]; intros self; simpl; [reflexivity|].
  assert (Hc : _eof (_parse_corot self c).1 = _eof self).
  { unfold _parse_corot. destruct (_parser self) as [| |current params|].
    - destruct (c =? BACKSPACE)%N.
      { destruct (py_pop _) as [[l [t ch]]|]; reflexivity. }
      destruct (c =? ESC)%N; [reflexivity|].
      destruct (c =? CSI_8BIT)%N; [reflexivity|].
      destruct self as [q e a f t []]; reflexivity.
    - destruct (c =? LBRACKET)%N; reflexivity.
    - destruct (isdigit c); [reflexivity|].
      destruct (int_or_0 current) as [v|e]; [|reflexivity].
      destruct (c =? SEMICOLON)%N; [reflexivity|].
      destruct (c =? LOWER_M)%N; [|reflexivity].
      unfold apply_sgr.
      destruct (_select_graphic_rendition _ _) as [a [[]|e]]; reflexivity.
    - reflexivity. }
  destruct (_parse_corot self c) as [self' [[]|e]]; simpl in *;
    [rewrite IH|]; exact Hc.
Qed.

(** X15.  One exception ends the decoding for good.  After a [read_chunk]
    that raised, every [read_chunk] with data raises [StopIteration] and
    changes nothing, so the tokens still queued are not delivered; a
    [read_chunk] without data (end of input) returns them. *)
Theorem read_chunk_after_exception self data self' e :
  read_chunk self data = (self', Raise e) ->
  (forall c data', read_chunk self' (c :: data') = (self', Raise StopIteration))
  /\ read_chunk self' [] =
     (set_line_tokens [] (set_eof true self'), Ret (_line_tokens self')).
Proof.
  intros Hrun.
  assert (Hfin : _parser self' = Finished).
  { unfold read_chunk in Hrun.
    set (s := match data with [] => set_eof true self | _ => self end) in Hrun.
    pose proof (send_all_raise_finishes data s) as H.
    destruct (send_all s data) as [s' [[]|e']]; [discriminate|].
    injection Hrun as <- <-. exact (H e' eq_refl). }
  split; [|reflexivity].
  intros c data'. unfold read_chunk. simpl.
  rewrite (send_Finished self' c Hfin). reflexivity.
Qed.

(** X16.  Without an introducer nothing can raise: from the [Normal] state a
    stream that holds neither ESC nor 0x9b is decoded without an exception
    and leaves the decoder in the [Normal] state. *)
Theorem no_introducer_no_exception data : forall self,
  _parser self = Normal -> ESC ∉ data -> CSI_8BIT ∉ data ->
  (send_all self data).2 = Ret ()
  /\ _parser (send_all self data).1 = Normal.
Proof.
  induction data as [|c data IH]; intros self Hp He Hc; [auto|].
  apply not_elem_of_cons in He as [He He'].
  apply not_elem_of_cons in Hc as [Hc Hc'].
  assert (Hstep : (_parse_corot self c).2 = Ret ()
                  /\ _parser (_parse_corot self c).1 = Normal).
  { apply not_eq_sym, N.eqb_neq in He, Hc.
    unfold _parse_corot. rewrite Hp, He, Hc.
    destruct (c =? BACKSPACE)%N.
    - destruct (py_pop _) as [[l [t ch]]|]; auto.
    - destruct self as [q e a f t []]; auto. }
  destruct Hstep as [Hres Hp']. simpl.
  destruct (_parse_corot self c) as [self' [[]|e]]; simpl in *;
    [|discriminate].
  apply IH; assumption.
Qed.

(** X17.  The end-of-input flag is set by a [read_chunk] without data and by
    nothing else, and it is never cleared. *)
Theorem read_chunk_eof self data :
  _eof (read_chunk self data).1 =
  _eof self || match data with [] => true | _ => false end.
Proof.
  unfold read_chunk.
  set (s := match data with [] => set_eof true self | _ => self end).
  assert (Hs : _eof s = _eof self || match data with [] => true | _ => false end).
  { unfold s. destruct data; simpl; [rewrite orb_true_r|rewrite orb_false_r];
      reflexivity. }
  pose proof (send_all_eof data s) as H.
  destruct (send_all s data) as [s' [[]|e]]; simpl in *; congruence.
Qed.

Lemma tag_is_current_step self c self' :
  tag_is_current self -> _parse_corot self c = (self', Ret ()) ->
  tag_is_current self'.
Proof.
  unfold tag_is_current, _parse_corot. intros Hinv.
  destruct (_parser self) as [| |current params|].
  - destruct (c =? BACKSPACE)%N.
    { destruct (py_pop _) as [[l [t ch]]|]; intros [= <-]; simpl; [|exact Hinv].
      destruct (ch =? UNDERSCORE)%N; discriminate. }
    destruct (c =? ESC)%N; [intros [= <-]; exact Hinv|].
    destruct (c =? CSI_8BIT)%N; [intros [= <-]; exact Hinv|].
    intros [= <-]. destruct self as [q e a f t []]; simpl in *;
      [discriminate|exact Hinv].
  - destruct (c =? LBRACKET)%N; intros [= <-]; exact Hinv.
  - destruct (isdigit c); [intros [= <-]; exact Hinv|].
    destruct (int_or_0 current) as [v|e]; [|discriminate].
    destruct (c =? SEMICOLON)%N; [intros [= <-]; exact Hinv|].
    destruct (c =? LOWER_M)%N; [|discriminate].
    unfold apply_sgr.
    destruct (_select_graphic_rendition _ _) as [a [[]|e]]; [|discriminate].
    intros [= <-]. simpl. congruence.
  - discriminate.
Qed.

(** X18.  In a decoder started by [__init__] and fed anything without an
    exception, a colour tag is never stale: when the tag is
    [('C', ) + attrs], [attrs] is the current [self._attrs]. *)
Theorem tag_is_current_invariant data self :
  send_all init data = (self, Ret ()) -> tag_is_current self.
Proof.
  assert (Hgen : forall data s s',
            tag_is_current s -> send_all s data = (s', Ret ()) ->
            tag_is_current s').
  { clear. induction data as [|c data IH]; intros s s' Hs; simpl.
    - intros [= <-]. exact Hs.
    - destruct (_parse_corot s c) as [s1 [[]|e]] eqn:Hc; [|discriminate].
      apply IH. exact (tag_is_current_step s c s1 Hs Hc). }
  apply Hgen. intros a. discriminate.
Qed.

End Decoder.

(** ** [GeneratorSource]: input from a Python generator *)

Module GeneratorSource.
Section Generator.

(** What the generator yields is a list of (token, text) pairs;
    [explode_tokens], imported from prompt_toolkit, turns it into (token,
    character) pairs.  The token type, the exceptions a generator may raise
    and [explode_tokens] are parameters. *)
Variable T : Type.
Variable E : Type.
Variable explode_tokens : list (T * string) -> list (T * char).

(** A generator object: a state and what [next] does to it.  [next] returns
    a value and the generator moves on, or raises [StopIteration] because the
    generator is exhausted (it then stays as it is), or raises what the
    generator's body raised. *)
Variable G : Type.

Inductive step : Type :=
| Yield (item : list (T * string)) (g : G)
| Stop
| Fail (e : E) (g : G).

Variable next : G -> step.

Record GeneratorSource : Type := mkGeneratorSource {
  _eof : bool;
  generator : G }.

(** [GeneratorSource.__init__] *)
Definition init (generator : G) : GeneratorSource :=
  mkGeneratorSource false generator.

(** [GeneratorSource.get_fd]: there is nothing to wait for. *)
Definition get_fd (self : GeneratorSource) : option Z := None.

(** [GeneratorSource.eof] *)
Definition eof (self : GeneratorSource) : bool := _eof self.

(** [GeneratorSource.read_chunk]: only [StopIteration] is caught (line
    240); any other exception of the generator reaches the caller. *)
Definition read_chunk (self : GeneratorSource)
  : GeneratorSource * (list (T * char) + E) :=
  match next (generator self) with
  | Yield item g => (mkGeneratorSource (_eof self) g, inl (explode_tokens item))
  | Stop => (mkGeneratorSource true (generator self), inl [])
  | Fail e g => (mkGeneratorSource (_eof self) g, inr e)
  end.

(** [n] calls of [read_chunk] in a row, and what they returned. *)
Fixpoint read_chunks (n : nat) (self : GeneratorSource)
  : GeneratorSource * list (list (T * char) + E) :=
  match n with
  | O => (self, [])
  | S n =>
      let '(self, r) := read_chunk self in
      let '(self, rs) := read_chunks n self in
      (self, r :: rs)
  end.

(** The generator yields exactly [items], in order, and is then in the
    state [g']. *)
Fixpoint yields (g : G) (items : list (list (T * string))) (g' : G) : Prop :=
  match items with
  | [] => g = g'
  | item :: items => exists g1, next g = Yield item g1 /\ yields g1 items g'
  end.

(** X19.  While the generator yields, every [read_chunk] returns the
    exploded item and leaves the end-of-input flag alone: after reading all
    the items of a generator, [eof] is still what it was. *)
Theorem read_items items : forall self g',
  yields (generator self) items g' ->
  read_chunks (length items) self =
  (mkGeneratorSource (_eof self) g', map (fun item => inl (explode_tokens item)) items).
Proof.
  induction items as [|item items IH]; intros self g' Hy; simpl in *.
  - subst g'. destruct self; reflexivity.
  - destruct Hy as (g1 & Hnext & Hy). unfold read_chunk. rewrite Hnext.
    rewrite (IH (mkGeneratorSource (_eof self) g1) g' Hy). reflexivity.
Qed.

(** X20.  An exhausted generator: the first [read_chunk] returns the empty
    list and sets the flag, and so does every later one; the object does not
    change any more. *)
Theorem read_exhausted n self :
  next (generator self) = Stop ->
  read_chunks (S n) self =
  (mkGeneratorSource true (generator self), replicate (S n) (inl [])).
Proof.
  intros Hstop.
  assert (Hgen : forall n s, next (generator s) = Stop -> _eof s = true ->
            read_chunks n s = (s, replicate n (inl []))).
  { clear. induction n as [|n IH]; intros s Hstop Heof; simpl; [reflexivity|].
    unfold read_chunk. rewrite Hstop.
    replace (mkGeneratorSource true (generator s)) with s
      by (destruct s; simpl in *; congruence).
    rewrite (IH s Hstop Heof). reflexivity. }
  cbn [read_chunks]. unfold read_chunk at 1. rewrite Hstop.
  rewrite Hgen by (simpl; auto). reflexivity.
Qed.

End Generator.

(** A generator that yields the elements of a list and stops. *)
Definition list_next {T E : Type} (g : list (list (T * string)))
  : step T E (list (list (T * string))) :=
  match g with
  | [] => Stop T E _
  | item :: g => Yield T E _ item g
  end.

End GeneratorSource.

(** ** The decoder on concrete input

    The statements below instantiate the decoder with the sample tables. *)

Abbreviation sample_parse_corot :=
  (_parse_corot sample_FG_ANSI_COLORS sample_BG_ANSI_COLORS sample_colors).
Abbreviation sample_send_all :=
  (send_all sample_FG_ANSI_COLORS sample_BG_ANSI_COLORS sample_colors).
Abbreviation sample_read_chunk :=
  (read_chunk sample_FG_ANSI_COLORS sample_BG_ANSI_COLORS sample_colors).
Abbreviation sample_read_chunks :=
  (read_chunks sample_FG_ANSI_COLORS sample_BG_ANSI_COLORS sample_colors).
Abbreviation sample_sgr :=
  (_select_graphic_rendition sample_FG_ANSI_COLORS sample_BG_ANSI_COLORS sample_colors).

(** *** The examples of the specification *)

Example plain_text :
  (sample_read_chunk init (chars "hello")).2 =
  Ret [(Token, 0x68%N); (Token, 0x65%N); (Token, 0x6c%N); (Token, 0x6c%N);
       (Token, 0x6f%N)].
Proof. reflexivity. Qed.

Example bold_overstrike :
  (sample_read_chunk init (chars "A" ++ [BACKSPACE] ++ chars "A")).2 =
  Ret [(Token_Standout, 0x41%N)].
Proof. reflexivity. Qed.

Example underline_overstrike :
  (sample_read_chunk init (chars "_" ++ [BACKSPACE] ++ chars "A")).2 =
  Ret [(Token_Standout2, 0x41%N)].
Proof. reflexivity. Qed.

Example reset_sequencing :
  (sample_read_chunk init (ESC :: chars "[31mx" ++ ESC :: chars "[0my")).2 =
  Ret [(Token_C (mkAttrs (Some "ansidarkred") None false false false false false),
        0x78%N);
       (Token_C default_attrs, 0x79%N)].
Proof. vm_compute. reflexivity. Qed.

Example palette_colour :
  (sample_read_chunk init (ESC :: chars "[38;5;196mz")).2 =
  Ret [(Token_C (mkAttrs (Some "ff0000") None false false false false false),
        0x7a%N)].
Proof. vm_compute. reflexivity. Qed.

Example truncated_truecolor :
  (sample_read_chunk init (ESC :: chars "[38;2;10mv")).2 =
  Ret [(Token_C default_attrs, 0x76%N)].
Proof. vm_compute. reflexivity. Qed.

Example unknown_code :
  sample_sgr default_attrs [99] = (default_attrs, Ret ()).
Proof. vm_compute. reflexivity. Qed.

(** A digit that is no decimal digit (superscript two) is collected like
    one, and [int] then raises [ValueError]. *)
Example superscript_digit :
  sample_read_chunk init (ESC :: chars "[" ++ [0xb2%N] ++ chars "m") =
  (set_parser Finished init, Raise ValueError).
Proof. reflexivity. Qed.

(** *** The claims on concrete input *)

(** The claim C1 fails on [ESC [ A]: the exception reaches the caller and the
    generator is finished, so the decoder is not back in the [Normal] state. *)
Lemma C1_malformed_terminator_not_skipped :
  sample_send_all init (ESC :: chars "[A") =
    (set_parser Finished init, Raise (Exception_ 0x41%N))
  /\ ~ (exists self', sample_send_all init (ESC :: chars "[A") = (self', Ret ())
                      /\ _parser self' = Normal).
Proof.
  split; [reflexivity|].
  intros (self' & Hrun & _). vm_compute in Hrun. discriminate Hrun.
Qed.

Lemma C1_malformed_terminator_raises_witness :
  sample_parse_corot (set_parser (InCSI [] []) init) 0x41%N =
    (set_parser Finished init, Raise (Exception_ 0x41%N))
  /\ forall c', sample_parse_corot (set_parser Finished init) c' =
                (set_parser Finished init, Raise StopIteration).
Proof.
  apply (C1_malformed_terminator_raises
           sample_FG_ANSI_COLORS sample_BG_ANSI_COLORS sample_colors
           (set_parser (InCSI [] []) init) [] [] 0x41%N);
    [reflexivity | reflexivity | discriminate | discriminate].
Defined.

(** The claim C2 fails in two ways.  The stream [a], backspace, [b] read in
    one batch yields the single token [b] with the tag [Token.Standout]; read
    as the batches [a] and backspace, [b] it yields [a] and [b], both with the
    tag [Token]: the first [read_chunk] has emptied the queue, so the
    backspace finds nothing to overstrike.  And the stream [x ESC [ A] read
    in one batch raises before anything is drained, while the batch [x] alone
    drains [x] before the next batch raises. *)
Lemma C2_split_changes_tokens :
  ((sample_read_chunk init (chars "a" ++ [BACKSPACE] ++ chars "b")).2 =
     Ret [(Token_Standout, 0x62%N)]
   /\ (sample_read_chunks init [chars "a"; [BACKSPACE] ++ chars "b"]).2 =
     Ret [[(Token, 0x61%N)]; [(Token, 0x62%N)]])
  /\ ((sample_read_chunk init (chars "x" ++ ESC :: chars "[A")).2 =
        Raise (Exception_ 0x41%N)
      /\ (sample_read_chunk init (chars "x")).2 = Ret [(Token, 0x78%N)]
      /\ (sample_read_chunk (sample_read_chunk init (chars "x")).1
            (ESC :: chars "[A")).2 = Raise (Exception_ 0x41%N)).
Proof. repeat split; reflexivity. Qed.

Lemma C2_split_invariance_without_backspace_witness :
  exists self'' lists,
    sample_read_chunks init [chars "he"; ESC :: chars "[1"; chars "mllo"] =
      (self'', Ret lists)
    /\ concat lists =
       let bold_attrs := mkAttrs None None true false false false false in
       [(Token, 0x68%N); (Token, 0x65%N); (Token_C bold_attrs, 0x6c%N);
        (Token_C bold_attrs, 0x6c%N); (Token_C bold_attrs, 0x6f%N)].
Proof.
  eapply (C2_split_invariance_without_backspace
            sample_FG_ANSI_COLORS sample_BG_ANSI_COLORS sample_colors
            [chars "he"; ESC :: chars "[1"; chars "mllo"] init).
  - apply (bool_decide_unpack _). vm_compute. exact I.
  - reflexivity.
  - vm_compute. reflexivity.
Defined.

(** C3, at an input that fails.  After the overstrike [a], backspace, [b]
    the sequence [ESC [ 1 m] makes the style bold; [p] is queued bold, but
    [q] is queued with the plain tag [Token] although no SGR sequence and no
    backspace came between them: [replace_one_token] is still set, so the
    ordinary character [p] has replaced the tag. *)
Theorem C3_ordinary_character_drops_style :
  let run := sample_read_chunk init
               (chars "a" ++ [BACKSPACE] ++ chars "b" ++ [ESC] ++ chars "[1mpq") in
  let bold_attrs := mkAttrs None None true false false false false in
  run.2 = Ret [(Token_Standout, 0x62%N); (Token_C bold_attrs, 0x70%N);
               (Token, 0x71%N)]
  /\ _attrs run.1 = bold_attrs.
Proof. vm_compute. split; reflexivity. Qed.

(** C4, at an input that fails.  With the style made bold by [ESC [ 1 m],
    the overstrike [a], backspace, [b] queues [b] with [Token.Standout]; the
    next character [c] is queued with the plain tag [Token], not with the
    bold style that is still current, and the flag is still set. *)
Theorem C4_override_not_cleared :
  let run := sample_read_chunk init
               ([ESC] ++ chars "[1ma" ++ [BACKSPACE] ++ chars "bc") in
  let bold_attrs := mkAttrs None None true false false false false in
  run.2 = Ret [(Token_Standout, 0x62%N); (Token, 0x63%N)]
  /\ _attrs run.1 = bold_attrs
  /\ replace_one_token run.1 = true.
Proof. vm_compute. repeat split; reflexivity. Qed.

Lemma C5_truncated_palette_form_raises_witness :
  sample_sgr default_attrs [38] = (default_attrs, Raise IndexError)
  /\ sample_sgr default_attrs [38; 5] = (default_attrs, Raise IndexError).
Proof.
  apply (C5_truncated_palette_form_raises
           sample_FG_ANSI_COLORS sample_BG_ANSI_COLORS sample_colors
           default_attrs 38);
    [left; reflexivity | split; vm_compute; reflexivity].
Defined.

(** The same failure seen from [read_chunk]: [ESC [ 38;5 m] raises
    [IndexError] and finishes the generator. *)
Example truncated_palette_form_in_a_stream :
  sample_read_chunk init (ESC :: chars "[38;5m") =
    (set_parser Finished init, Raise IndexError).
Proof. reflexivity. Qed.

Lemma C6_backspace_on_empty_queue_witness :
  sample_parse_corot init BACKSPACE = (init, Ret ()).
Proof.
  apply (C6_backspace_on_empty_queue
           sample_FG_ANSI_COLORS sample_BG_ANSI_COLORS sample_colors init);
    reflexivity.
Defined.

Lemma C7_unsupported_escape_ignored_witness :
  sample_send_all init [ESC; 0x41%N] = (init, Ret ()).
Proof.
  apply (C7_unsupported_escape_ignored
           sample_FG_ANSI_COLORS sample_BG_ANSI_COLORS sample_colors init 0x41%N);
    [reflexivity | discriminate].
Defined.

Lemma C8_truecolor_foreground_witness :
  exists self',
    sample_send_all init (ESC :: chars "[38;2;10;20;30mw") = (self', Ret ())
    /\ _line_tokens self' =
       [(Token_C (mkAttrs (Some "0a141e") None false false false false false),
         0x77%N)].
Proof.
  apply (C8_truecolor_foreground
           sample_FG_ANSI_COLORS sample_BG_ANSI_COLORS sample_colors init);
    [reflexivity | reflexivity | split; vm_compute; reflexivity].
Defined.

(** The claim C9 fails on a run of 4301 digits: when [;] arrives nothing is
    pushed, [int] raises [ValueError] and the generator is finished.  A run
    of 4300 digits is pushed as 9999. *)
Lemma C9_long_digit_run_raises :
  sample_send_all init
    (ESC :: LBRACKET :: repeat 0x31%N (N.to_nat 4301) ++ [SEMICOLON]) =
    (set_parser Finished init, Raise ValueError)
  /\ sample_send_all init
       (ESC :: LBRACKET :: repeat 0x31%N (N.to_nat 4300) ++ [SEMICOLON]) =
     (set_parser (InCSI [] [9999]) init, Ret ()).
Proof. split; vm_compute; reflexivity. Qed.

Lemma C9_digit_run_clamped_witness :
  let self := set_parser (InCSI [] []) init in
  sample_send_all self (chars "12345" ++ [SEMICOLON]) =
    (set_parser (InCSI [] [9999]) self, Ret ())
  /\ sample_send_all self (chars "12345" ++ [LOWER_M]) =
     apply_sgr sample_FG_ANSI_COLORS sample_BG_ANSI_COLORS sample_colors self [9999]
  /\ Forall (fun p => 0 <= p <= 9999) [9999].
Proof.
  apply (C9_digit_run_clamped
           sample_FG_ANSI_COLORS sample_BG_ANSI_COLORS sample_colors
           (ESC :: chars "[") (set_parser (InCSI [] []) init) [] (chars "12345"));
    [reflexivity | reflexivity | repeat constructor | vm_compute; discriminate].
Defined.

Lemma C10_palette_index_out_of_range_witness :
  sample_sgr default_attrs [38; 5; 256] = (default_attrs, Ret ())
  /\ sample_sgr default_attrs [48; 5; 256] = (default_attrs, Ret ()).
Proof.
  apply (C10_palette_index_out_of_range
           sample_FG_ANSI_COLORS sample_BG_ANSI_COLORS sample_colors
           default_attrs 256);
    [apply Nat.leb_le; vm_compute; reflexivity | right; reflexivity
    | split; vm_compute; reflexivity | split; vm_compute; reflexivity].
Defined.

(** *** The further properties on concrete input *)

Ltac by_decision := apply (bool_decide_unpack _); vm_compute; exact I.

Lemma truncated_truecolor_keeps_style_witness :
  sample_sgr default_attrs [38; 2; 10; 20] = (default_attrs, Ret ()).
Proof.
  apply (truncated_truecolor_keeps_style
           sample_FG_ANSI_COLORS sample_BG_ANSI_COLORS sample_colors
           default_attrs 38 [10; 20]);
    [left; reflexivity | split; vm_compute; reflexivity | simpl; lia].
Defined.

Lemma attrs_change_only_by_sgr_witness :
  exists current params,
    _parser (set_parser (InCSI (chars "1") []) init) = InCSI current params
    /\ LOWER_M = LOWER_M.
Proof.
  apply (attrs_change_only_by_sgr
           sample_FG_ANSI_COLORS sample_BG_ANSI_COLORS sample_colors
           (set_parser (InCSI (chars "1") []) init) LOWER_M).
  vm_compute. discriminate.
Defined.

Lemma replace_one_token_sticky_witness :
  replace_one_token
    (sample_parse_corot (set_replace_one_token true init) 0x61%N).1 = true.
Proof.
  apply (replace_one_token_sticky
           sample_FG_ANSI_COLORS sample_BG_ANSI_COLORS sample_colors
           (set_replace_one_token true init) 0x61%N).
  reflexivity.
Defined.

Lemma sgr_returns_without_extended_colour_witness :
  exists a', sample_sgr default_attrs [1; 31; 0; 4] = (a', Ret ()).
Proof.
  apply (sgr_returns_without_extended_colour
           sample_FG_ANSI_COLORS sample_BG_ANSI_COLORS sample_colors
           default_attrs [1; 31; 0; 4]).
  unfold no_extended_colour. repeat constructor; lia.
Defined.

Lemma sgr_reset_forgets_witness :
  sample_sgr (mkAttrs (Some "0a141e") None true false false false false)
             ([1; 31] ++ 0 :: [4]) =
  sample_sgr default_attrs (0 :: [4]).
Proof.
  apply (sgr_reset_forgets
           sample_FG_ANSI_COLORS sample_BG_ANSI_COLORS sample_colors).
  - split; vm_compute; reflexivity.
  - unfold no_extended_colour. repeat constructor; lia.
Defined.

Lemma sgr_two_sequences_witness :
  sample_sgr (sample_sgr default_attrs [1; 31]).1 [4; 38; 5; 196] =
  sample_sgr default_attrs ([1; 31] ++ [4; 38; 5; 196]).
Proof.
  apply (sgr_two_sequences
           sample_FG_ANSI_COLORS sample_BG_ANSI_COLORS sample_colors
           default_attrs [1; 31] [4; 38; 5; 196]).
  - unfold no_extended_colour. repeat constructor; lia.
  - discriminate.
  - discriminate.
  - vm_compute. reflexivity.
Defined.

Lemma sgr_idempotent_witness :
  let a' := mkAttrs (Some "ff0000") None true false false false false in
  sample_sgr a' [1; 38; 5; 196] = (a', Ret ()).
Proof.
  apply (sgr_idempotent
           sample_FG_ANSI_COLORS sample_BG_ANSI_COLORS sample_colors
           default_attrs [1; 38; 5; 196]).
  vm_compute. reflexivity.
Defined.

Lemma sgr_keeps_flag_witness :
  get_flag Bold
    (mkAttrs (Some "ansidarkred") None true true false false false) = true.
Proof.
  apply (sgr_keeps_flag
           sample_FG_ANSI_COLORS sample_BG_ANSI_COLORS sample_colors
           Bold (mkAttrs None None true false false false false) [31; 4]).
  - reflexivity.
  - by_decision.
  - by_decision.
  - discriminate.
  - vm_compute. reflexivity.
Defined.

Lemma sgr_ignores_unknown_codes_witness :
  sample_sgr default_attrs [99; 2] = (default_attrs, Ret ()).
Proof.
  apply (sgr_ignores_unknown_codes
           sample_FG_ANSI_COLORS sample_BG_ANSI_COLORS sample_colors
           default_attrs [99; 2]).
  - repeat constructor; try (vm_compute; reflexivity); by_decision.
  - discriminate.
Defined.

Lemma sgr_palette_colour_witness :
  sample_sgr default_attrs [38; 5; 196] =
  (mkAttrs (Some "ff0000") None false false false false false, Ret ()).
Proof.
  apply (sgr_palette_colour
           sample_FG_ANSI_COLORS sample_BG_ANSI_COLORS sample_colors
           default_attrs 38 196 255 0 0).
  - left. reflexivity.
  - split; vm_compute; reflexivity.
  - lia.
  - vm_compute. reflexivity.
Defined.

Lemma format_02x_round_trip_witness :
  HexString.Raw.to_N (format_02x 10) 0%N = Z.to_N 10
  /\ (format_02x 10 = format_02x 20 -> 10 = 20).
Proof. apply (format_02x_round_trip 10 20); lia. Defined.

Lemma format_rgb_length_witness :
  (String.length (format_rgb 10 20 300) = 6%nat
   <-> 10 <= 255 /\ 20 <= 255 /\ 300 <= 255)
  /\ (6 <= String.length (format_rgb 10 20 300))%nat.
Proof. apply (format_rgb_length 10 20 300); lia. Defined.

Lemma csi_sequence_parsed_witness :
  let runs := [chars "38"; chars "5"; chars "196"] in
  sample_send_all init (ESC :: LBRACKET :: csi_body runs) =
    apply_sgr sample_FG_ANSI_COLORS sample_BG_ANSI_COLORS sample_colors init
      (map parameter runs)
  /\ sample_send_all init (CSI_8BIT :: csi_body runs) =
    apply_sgr sample_FG_ANSI_COLORS sample_BG_ANSI_COLORS sample_colors init
      (map parameter runs).
Proof.
  apply (csi_sequence_parsed
           sample_FG_ANSI_COLORS sample_BG_ANSI_COLORS sample_colors
           init [chars "38"; chars "5"; chars "196"]).
  - reflexivity.
  - discriminate.
  - repeat constructor.
  - repeat constructor; vm_compute; discriminate.
Defined.

Lemma plain_text_queued_witness :
  sample_send_all init (chars "hello") =
  (set_line_tokens (map (pair Token) (chars "hello")) init, Ret ()).
Proof.
  apply (plain_text_queued
           sample_FG_ANSI_COLORS sample_BG_ANSI_COLORS sample_colors
           (chars "hello") init).
  - reflexivity.
  - reflexivity.
  - unfold ordinary. repeat constructor; discriminate.
Defined.

Lemma overstrike_pair_witness :
  sample_send_all init [0x5f%N; BACKSPACE; 0x41%N] =
  (set_token Token
     (set_replace_one_token true
        (set_line_tokens [(Token_Standout2, 0x41%N)] init)), Ret ()).
Proof.
  apply (overstrike_pair
           sample_FG_ANSI_COLORS sample_BG_ANSI_COLORS sample_colors
           init 0x5f%N 0x41%N).
  - reflexivity.
  - unfold ordinary. repeat split; discriminate.
  - unfold ordinary. repeat split; discriminate.
Defined.

Lemma read_chunk_after_exception_witness :
  let dead := set_parser Finished init in
  (forall c data', sample_read_chunk dead (c :: data') = (dead, Raise StopIteration))
  /\ sample_read_chunk dead [] =
     (set_line_tokens [] (set_eof true dead), Ret (_line_tokens dead)).
Proof.
  apply (read_chunk_after_exception
           sample_FG_ANSI_COLORS sample_BG_ANSI_COLORS sample_colors
           init (ESC :: chars "[A") (set_parser Finished init)
           (Exception_ 0x41%N)).
  reflexivity.
Defined.

Lemma no_introducer_no_exception_witness :
  let data := chars "a" ++ [BACKSPACE] ++ chars "b" in
  (sample_send_all init data).2 = Ret ()
  /\ _parser (sample_send_all init data).1 = Normal.
Proof.
  apply (no_introducer_no_exception
           sample_FG_ANSI_COLORS sample_BG_ANSI_COLORS sample_colors
           (chars "a" ++ [BACKSPACE] ++ chars "b") init).
  - reflexivity.
  - by_decision.
  - by_decision.
Defined.

Lemma tag_is_current_invariant_witness :
  tag_is_current (sample_send_all init (ESC :: chars "[1mx")).1.
Proof.
  apply (tag_is_current_invariant
           sample_FG_ANSI_COLORS sample_BG_ANSI_COLORS sample_colors
           (ESC :: chars "[1mx")).
  vm_compute. reflexivity.
Defined.

Lemma read_items_witness :
  let g := [[(1%nat, "ab")]; [(2%nat, "c")]; [(3%nat, "d")]]%string in
  GeneratorSource.read_chunks nat Empty_set sample_explode_tokens _
    GeneratorSource.list_next 2 (GeneratorSource.init _ g) =
  (GeneratorSource.mkGeneratorSource _ false [[(3%nat, "d")]]%string,
   [inl [(1%nat, 0x61%N); (1%nat, 0x62%N)]; inl [(2%nat, 0x63%N)]]).
Proof.
  apply (GeneratorSource.read_items nat Empty_set sample_explode_tokens _
           GeneratorSource.list_next
           [[(1%nat, "ab")]; [(2%nat, "c")]]%string
           (GeneratorSource.init _
              [[(1%nat, "ab")]; [(2%nat, "c")]; [(3%nat, "d")]]%string)
           [[(3%nat, "d")]]%string).
  simpl. eexists. split; [reflexivity|]. eexists. split; reflexivity.
Defined.

Lemma read_exhausted_witness :
  GeneratorSource.read_chunks nat Empty_set sample_explode_tokens _
    GeneratorSource.list_next 3 (GeneratorSource.init _ []) =
  (GeneratorSource.mkGeneratorSource _ true [],
   [inl []; inl []; inl []]).
Proof.
  apply (GeneratorSource.read_exhausted nat Empty_set sample_explode_tokens _
           GeneratorSource.list_next 2 (GeneratorSource.init _ [])).
  reflexivity.
Defined.
